(** * python-dotenv: merge engine, rewrite transaction, key mutators, chain loader

    A shallow embedding of [src/dotenv/main.py].  Python dictionaries are
    insertion-ordered association lists, the file system and the open text
    streams are finite maps, and every effectful function is a computation
    in a small state-and-exception monad over the [World].  Files hold
    their text as it is stored; the text-mode handles that the program
    opens translate line endings when they read and when they write. *)

From stdpp Require Import base option list strings gmap stringmap.
From Stdlib Require Import String Ascii.

Open Scope string_scope.
Open Scope list_scope.

(** ** Python dictionaries

    A [dict] keeps its keys in insertion order; assigning to a key that is
    already present replaces the value where the key sits. *)

Module PyDict.

Section Ops.
Context {V : Type}.

Definition t : Type := list (string * V).

Definition empty : t := [].

(** [d.get(k)], with [None] for a missing key. *)
Fixpoint get (d : t) (k : string) : option V :=
  match d with
  | [] => None
  | (k', v) :: d' => if decide (k' = k) then Some v else get d' k
  end.

(** [k in d] *)
Definition contains (d : t) (k : string) : bool :=
  match get d k with Some _ => true | None => false end.

(** [d[k] = v] *)
Fixpoint set (d : t) (k : string) (v : V) : t :=
  match d with
  | [] => [(k, v)]
  | (k', v') :: d' =>
      if decide (k' = k) then (k', v) :: d' else (k', v') :: set d' k v
  end.

(** [d.update(items)]: the items are assigned one after the other. *)
Fixpoint update (d : t) (items : list (string * V)) : t :=
  match items with
  | [] => d
  | (k, v) :: rest => update (set d k v) rest
  end.

(** [{**a, **b}] *)
Definition merge (a b : t) : t := update (update empty a) b.

(** [list(d.keys())] *)
Definition keys (d : t) : list string := d.*1.

(** [bool(d)]: a dictionary is truthy when it is not empty. *)
Definition truthy (d : t) : bool :=
  match d with [] => false | _ :: _ => true end.

(** What a Python dictionary always satisfies: no key twice. *)
Definition wf (d : t) : Prop := NoDup (keys d).
End Ops.

Arguments t : clear implicits.

End PyDict.

(** The values of an env file are strings or absent ([None]). *)
Abbreviation Env := (PyDict.t (option string)).

(** ** Interpolation atoms ([variables.py]) *)

(** Modelled from the spec: [variables.py] is not part of the sources at
    hand.  An atom is a literal text fragment or a reference to a variable
    by name, possibly with a default-value fallback. *)
Inductive Atom : Type :=
  | Literal (value : string)
  | Reference (name : string) (default : option string).

(** Modelled from the spec: [Atom.resolve] of [variables.py].  A literal
    contributes its text; a reference contributes the value bound to its
    name, the empty string when the name is bound to an absent value, and
    its default (or the empty string) when the name is not bound at all. *)
Definition resolve (a : Atom) (env : Env) : string :=
  match a with
  | Literal value => value
  | Reference name default =>
      match PyDict.get env name with
      | Some (Some v) => v
      | Some None => ""
      | None => match default with Some text => text | None => "" end
      end
  end.

(** The interpolation-atom tokenizer [parse_variables] is an external
    collaborator of [main.py]. *)
Class AtomTokenizer := parse_variables : string -> list Atom.

(** ** The merge engine *)

Section MergeEngine.
Context `{AtomTokenizer}.

(** The body of the loop of [resolve_variables]: the resolved value of one
    pair, given the values resolved so far. *)
Definition resolve_value (override : bool) (base_env new_values : Env)
    (value : option string) : option string :=
  match value with
  | None => None
  | Some value =>
      let atoms := parse_variables value in
      let env :=
        if override
        then PyDict.update (PyDict.update PyDict.empty base_env) new_values
        else PyDict.update (PyDict.update PyDict.empty new_values) base_env
      in
      Some (String.concat "" (map (fun atom => resolve atom env) atoms))
  end.

Fixpoint resolve_variables_from (new_values : Env)
    (values : list (string * option string)) (override : bool)
    (base_env : Env) : Env :=
  match values with
  | [] => new_values
  | (name, value) :: rest =>
      let result := resolve_value override base_env new_values value in
      resolve_variables_from (PyDict.set new_values name result)
        rest override base_env
  end.

Definition resolve_variables (values : list (string * option string))
    (override : bool) (base_env : Env) : Env :=
  resolve_variables_from PyDict.empty values override base_env.

End MergeEngine.

(** ** Bindings ([parser.py]) *)

(** Modelled from the spec: [parser.py] is not part of the sources at hand.
    [Original] is the exact text of one logical line, trailing newline
    included, with the number of the line it starts at. *)
Module Original.
Record t : Type := mk { string : String.string; line : nat }.
End Original.

(** Modelled from the spec: the [Binding] tuple of [parser.py], one parsed
    logical line.  [key] is absent for a blank, comment or unparsable line,
    [value] is absent for a key without [=value], [error] marks a line that
    could not be parsed. *)
Record Binding : Type := mkBinding {
  key : option string;
  value : option string;
  original : Original.t;
  error : bool;
}.

(** The line-level tokenizer [parse_stream] is an external collaborator of
    [main.py]; it is given the whole text of the stream it reads. *)
Class BindingStream := parse_stream : string -> list Binding.

(** ** The world: files, streams, ambient environment, observable trace *)

Inductive LogMsg : Type :=
  | CouldNotParse (line : nat)
      (* warning "Python-dotenv could not parse statement starting at line %s" *)
  | CouldNotFind (path : string)
      (* info "Python-dotenv could not find configuration file %s." *)
  | KeyNotFound (key : string) (path : option string)
      (* warning "Key %s not found in %s." *)
  | CantDelete (path : string)
      (* warning "Can't delete from %s - it doesn't exist." *)
  | KeyNotRemoved (key path : string)
      (* warning "Key %s not removed from %s - key doesn't exist." *).

(** What the program does to the outside, in the order it does it. *)
Inductive Event : Type :=
  | EvLog (msg : LogMsg)
  | EvOpen (path : string) (mode : string)
  | EvReadStream (handle : nat)
  | EvTempFile (name : string)
  | EvUnlink (path : string)
  | EvMove (src dst : string).

(** Files hold their text as it is stored, line endings included; every
    path names a regular file or nothing.  [streams] maps the handle of a
    caller-supplied text stream to the text not read yet.  [environ] is
    [os.environ], a mapping whose names are told apart by case, as they
    are on POSIX. *)
Record World : Type := mkWorld {
  fs : gmap string string;
  streams : gmap nat string;
  environ : PyDict.t string;
  trace : list Event;
}.

Definition with_fs (f : gmap string string -> gmap string string) (w : World) : World :=
  {| fs := f (fs w); streams := streams w; environ := environ w; trace := trace w |}.

Definition with_streams (f : gmap nat string -> gmap nat string) (w : World) : World :=
  {| fs := fs w; streams := f (streams w); environ := environ w; trace := trace w |}.

Definition with_environ (f : PyDict.t string -> PyDict.t string) (w : World) : World :=
  {| fs := fs w; streams := streams w; environ := f (environ w); trace := trace w |}.

Definition emit (evs : list Event) (w : World) : World :=
  {| fs := fs w; streams := streams w; environ := environ w; trace := trace w ++ evs |}.

(** ** Exceptions and the monad of effectful code *)

Inductive Exn : Type :=
  | ValueError (msg : string)
  | AssertionError
  | FileNotFoundError (path : string)
  | OtherException (name : string).

Inductive Result (A : Type) : Type :=
  | Ok (a : A)
  | Raise (e : Exn).
Arguments Ok {A} a.
Arguments Raise {A} e.

Definition M (A : Type) : Type := World -> Result A * World.

Definition ret {A} (a : A) : M A := fun w => (Ok a, w).

Definition raise {A} (e : Exn) : M A := fun w => (Raise e, w).

Definition bind {A B} (m : M A) (k : A -> M B) : M B :=
  fun w => match m w with
           | (Ok a, w') => k a w'
           | (Raise e, w') => (Raise e, w')
           end.

(** [try: m  except BaseException: handler; raise  else: k] *)
Definition try_except_else {A B} (m : M A) (handler : M unit) (k : A -> M B) : M B :=
  fun w => match m w with
           | (Ok a, w') => k a w'
           | (Raise e, w') =>
               match handler w' with
               | (Ok _, w'') => (Raise e, w'')
               | (Raise e', w'') => (Raise e', w'')
               end
           end.

Declare Scope py_scope.
Delimit Scope py_scope with py.
Notation "x <- m ;; k" := (bind m (fun x => k))
  (at level 100, m at next level, right associativity) : py_scope.
Notation "m ;; k" := (bind m (fun _ => k))
  (at level 100, right associativity) : py_scope.
Open Scope py_scope.

Definition gets {A} (f : World -> A) : M A := fun w => (Ok (f w), w).

Definition modify (f : World -> World) : M unit := fun w => (Ok tt, f w).

Definition when (b : bool) (m : M unit) : M unit := if b then m else ret tt.

(** ** Text-mode handles

    [io.open(path)], [io.open(path, "w+")] and
    [tempfile.NamedTemporaryFile(mode="w+")] open their file in text mode
    with [newline=None]: the line endings of what is read are translated,
    and so are those of what is written. *)

Definition char_NUL : ascii := ascii_of_nat 0.
Definition char_LF : ascii := ascii_of_nat 10.
Definition char_CR : ascii := ascii_of_nat 13.

(** Some character of the text is [c]. *)
Fixpoint has_char (c : ascii) (s : string) : bool :=
  match s with
  | EmptyString => false
  | String c' rest => bool_decide (c' = c) || has_char c rest
  end.

(** Reading: a carriage return with the line feed after it, and a carriage
    return alone, are read as one line feed. *)
Fixpoint universal_newlines (s : string) : string :=
  match s with
  | EmptyString => EmptyString
  | String c rest =>
      if decide (c = char_CR)
      then String char_LF
             match rest with
             | String c' rest' =>
                 if decide (c' = char_LF) then universal_newlines rest'
                 else universal_newlines rest
             | EmptyString => EmptyString
             end
      else String c (universal_newlines rest)
  end.

(** [os.linesep], the line ending of the platform: a line feed on POSIX, a
    carriage return and a line feed on Windows. *)
Class Platform := os_linesep : string.

(** Writing: every line feed is stored as [os.linesep]. *)
Fixpoint newline_write `{Platform} (s : string) : string :=
  match s with
  | EmptyString => EmptyString
  | String c rest =>
      if decide (c = char_LF) then os_linesep +:+ newline_write rest
      else String c (newline_write rest)
  end.

(** *** Primitives of the standard library, as far as [main.py] uses them *)

Definition log (msg : LogMsg) : M unit := modify (emit [EvLog msg]).

Definition os_path_isfile (path : string) : M bool :=
  gets (fun w => bool_decide (is_Some (fs w !! path))).

Definition os_path_exists (path : string) : M bool :=
  gets (fun w => bool_decide (is_Some (fs w !! path))).

(** [with io.open(path, "w+") as f: f.write(text)] *)
Definition io_open_write `{Platform} (path text : string) : M unit :=
  modify (fun w => emit [EvOpen path "w+"] (with_fs <[path := newline_write text]> w)).

(** [io.open(path)] followed by reading the handle to its end: the text of
    the file with its line endings translated. *)
Definition io_open_read (path : string) : M string :=
  file <- gets (fun w => fs w !! path) ;;
  match file with
  | Some text => modify (emit [EvOpen path "r"]) ;; ret (universal_newlines text)
  | None => raise (FileNotFoundError path)
  end.

(** Reading a caller-supplied stream to its end consumes it; a handle
    without text left reads as empty. *)
Definition stream_read (handle : nat) : M string :=
  text <- gets (fun w => default "" (streams w !! handle)) ;;
  modify (fun w => emit [EvReadStream handle] (with_streams <[handle := ""]> w)) ;;
  ret text.

Definition os_unlink (path : string) : M unit :=
  file <- gets (fun w => fs w !! path) ;;
  match file with
  | Some _ => modify (fun w => emit [EvUnlink path] (with_fs (delete path) w))
  | None => raise (FileNotFoundError path)
  end.

(** [shutil.move(src, dst)] onto a regular file or a free name: [dst] gets
    the content of [src], and [src] is gone. *)
Definition shutil_move (src dst : string) : M unit :=
  file <- gets (fun w => fs w !! src) ;;
  match file with
  | Some text =>
      modify (fun w => emit [EvMove src dst]
                         (with_fs (fun files => <[dst := text]> (delete src files)) w))
  | None => raise (FileNotFoundError src)
  end.

(** [bool(s)] for a string. *)
Definition nonempty (s : string) : bool :=
  match s with EmptyString => false | _ => true end.

(** [os.environ[name] = value] goes through [os.putenv], which refuses a
    NUL character in the name or in the value, and a name that is empty or
    has an [=] in it. *)
Definition putenv_error (name value : string) : option Exn :=
  if has_char char_NUL name || has_char char_NUL value
  then Some (ValueError "embedded null byte")
  else if negb (nonempty name) || has_char "="%char name
  then Some (ValueError "illegal environment variable name")
  else None.

Definition os_environ_setitem (name value : string) : M unit :=
  match putenv_error name value with
  | Some e => raise e
  | None => modify (with_environ (fun env => PyDict.set env name value))
  end.

(** [tempfile.NamedTemporaryFile(mode="w+", delete=False)] creates a file
    under a name that is not in use. *)
Class TempNames := {
  mkstemp : gmap string string -> string;
  mkstemp_fresh : forall files, files !! mkstemp files = None;
}.

Definition tempfile_NamedTemporaryFile `{TempNames} : M string :=
  name <- gets (fun w => mkstemp (fs w)) ;;
  modify (fun w => emit [EvTempFile name] (with_fs <[name := ""]> w)) ;;
  ret name.

(** ** The transactional rewriter *)

(** What the body of a [with rewrite(path) as (source, dest):] block does
    with its two handles: given the text behind [source], it logs, writes
    [written] to [dest], and returns or raises. *)
Record BodyRun (A : Type) : Type := mkBodyRun {
  logged : list LogMsg;
  written : string;
  outcome : Result A;
}.
Arguments mkBodyRun {A} logged written outcome.
Arguments logged {A} b.
Arguments written {A} b.
Arguments outcome {A} b.

(** The block runs at the [yield]; what it wrote reaches the temporary file
    when the handle is closed on the way out, whether it returned or raised.
    [dest] is a text-mode handle. *)
Definition run_body `{Platform} {A} (dest : string) (run : BodyRun A) : M A :=
  modify (emit (EvLog <$> logged run)) ;;
  modify (with_fs <[dest := newline_write (written run)]>) ;;
  match outcome run with
  | Ok a => ret a
  | Raise e => raise e
  end.

(** [rewrite].  Creating the missing file and the temporary file does not
    raise here (every path can be written), so the handler finds [dest]
    bound, and the [try] is entered with [dest] in hand. *)
Definition rewrite `{Platform} `{TempNames} {A} (path : string)
    (body : string -> BodyRun A) : M A :=
  isfile <- os_path_isfile path ;;
  when (negb isfile) (io_open_write path "") ;;
  dest <- tempfile_NamedTemporaryFile ;;
  try_except_else
    (source <- io_open_read path ;;
     run_body dest (body source))
    (dest_isfile <- os_path_isfile dest ;;
     when dest_isfile (os_unlink dest))
    (fun a => shutil_move dest path ;; ret a).

(** ** The key mutators *)

Definition LF : string := String (ascii_of_nat 10) EmptyString.

(** An ASCII letter or digit. *)
Definition ascii_alnum (c : ascii) : bool :=
  let n := nat_of_ascii c in
  (((48 <=? n) && (n <=? 57)) || ((65 <=? n) && (n <=? 90))
   || ((97 <=? n) && (n <=? 122)))%nat.

(** Every character of the text is an ASCII character. *)
Definition is_ascii_text (s : string) : bool :=
  forallb (fun c => (nat_of_ascii c <? 128)%nat) (list_ascii_of_string s).

(** Not empty, ASCII letters and digits only. *)
Definition ascii_isalnum (s : string) : bool :=
  nonempty s && forallb ascii_alnum (list_ascii_of_string s).

(** [str.isalnum] looks every character up in the Unicode character
    database, which is not part of the program: a letter or a digit of any
    script counts.  On ASCII text it is [ascii_isalnum]. *)
Class StrMethods := {
  isalnum : string -> bool;
  isalnum_ascii : forall s : string, is_ascii_text s = true -> isalnum s = ascii_isalnum s;
}.

(** [s.replace("'", "\\'")] *)
Fixpoint escape_single_quotes (s : string) : string :=
  match s with
  | EmptyString => EmptyString
  | String c rest =>
      if decide (c = "'"%char)
      then String "\"%char (String "'"%char (escape_single_quotes rest))
      else String c (escape_single_quotes rest)
  end.

(** The warnings [with_warn_for_invalid_lines] logs while it passes the
    bindings on unchanged. *)
Definition with_warn_for_invalid_lines (mappings : list Binding) : list LogMsg * list Binding :=
  (omap (fun mapping => if error mapping
                        then Some (CouldNotParse (Original.line (original mapping)))
                        else None) mappings,
   mappings).

Section KeyMutators.
Context `{BindingStream} `{Platform} `{TempNames} `{StrMethods}.

(** The loop of [set_key]: what is written for the bindings, and
    [replaced]. *)
Fixpoint set_key_loop (key_to_set line_out : string) (replaced : bool)
    (mappings : list Binding) : string * bool :=
  match mappings with
  | [] => (EmptyString, replaced)
  | mapping :: rest =>
      if decide (key mapping = Some key_to_set)
      then let '(out, replaced') := set_key_loop key_to_set line_out true rest in
           (line_out +:+ out, replaced')
      else let '(out, replaced') := set_key_loop key_to_set line_out replaced rest in
           (Original.string (original mapping) +:+ out, replaced')
  end.

Definition set_key_body (key_to_set line_out : string) (source : string) : BodyRun unit :=
  let '(warnings, mappings) := with_warn_for_invalid_lines (parse_stream source) in
  let '(out, replaced) := set_key_loop key_to_set line_out false mappings in
  mkBodyRun warnings
    (if replaced then out else out +:+ line_out)
    (Ok tt).

Definition set_key (dotenv_path key_to_set value_to_set : string)
    (quote_mode : string) (export : bool) : M (option bool * string * string) :=
  if negb (bool_decide (quote_mode ∈ ["always"; "auto"; "never"]))
  then raise (ValueError ("Unknown quote_mode: " +:+ quote_mode))
  else
    let quote :=
      bool_decide (quote_mode = "always")
      || (bool_decide (quote_mode = "auto") && negb (isalnum value_to_set)) in
    let value_out :=
      if quote then "'" +:+ escape_single_quotes value_to_set +:+ "'"
      else value_to_set in
    let line_out :=
      if export then "export " +:+ key_to_set +:+ "=" +:+ value_out +:+ LF
      else key_to_set +:+ "=" +:+ value_out +:+ LF in
    rewrite dotenv_path (set_key_body key_to_set line_out) ;;
    ret (Some true, key_to_set, value_to_set).

(** The loop of [unset_key]: what is written, and [removed]. *)
Fixpoint unset_key_loop (key_to_unset : string) (removed : bool)
    (mappings : list Binding) : string * bool :=
  match mappings with
  | [] => (EmptyString, removed)
  | mapping :: rest =>
      if decide (key mapping = Some key_to_unset)
      then unset_key_loop key_to_unset true rest
      else let '(out, removed') := unset_key_loop key_to_unset removed rest in
           (Original.string (original mapping) +:+ out, removed')
  end.

Definition unset_key_body (key_to_unset : string) (source : string) : BodyRun bool :=
  let '(warnings, mappings) := with_warn_for_invalid_lines (parse_stream source) in
  let '(out, removed) := unset_key_loop key_to_unset false mappings in
  mkBodyRun warnings out (Ok removed).

Definition unset_key (dotenv_path key_to_unset : string) (quote_mode : string)
    : M (option bool * string) :=
  path_exists <- os_path_exists dotenv_path ;;
  if negb path_exists
  then log (CantDelete dotenv_path) ;;
       ret (None, key_to_unset)
  else
    removed <- rewrite dotenv_path (unset_key_body key_to_unset) ;;
    if negb removed
    then log (KeyNotRemoved key_to_unset dotenv_path) ;;
         ret (None, key_to_unset)
    else ret (Some removed, key_to_unset).

End KeyMutators.

(** ** The [DotEnv] class *)

(** [base_env] is a mapping of the caller, or (the default) the object
    [os.environ] itself, read when it is used. *)
Inductive BaseEnv : Type :=
  | OsEnviron
  | Mapping (env : Env).

Definition current_base_env (base_env : BaseEnv) (w : World) : Env :=
  match base_env with
  | OsEnviron => prod_map id Some <$> environ w
  | Mapping env => env
  end.

Definition read_base_env (base_env : BaseEnv) : M Env :=
  gets (current_base_env base_env).

Module DotEnv.

Record t : Type := mk {
  dotenv_path : option string;
  stream : option nat;
  _dict : option Env;
  verbose : bool;
  encoding : option string;
  interpolate : bool;
  override : bool;
  base_env : BaseEnv;
}.

(** [DotEnv(dotenv_path, stream, verbose, encoding, interpolate, override,
    base_env)]: [_dict] starts as [None]. *)
Definition __init__ (dotenv_path : option string) (stream : option nat)
    (verbose : bool) (encoding : option string) (interpolate override : bool)
    (base_env : BaseEnv) : t :=
  mk dotenv_path stream None verbose encoding interpolate override base_env.

(** [self._dict = d] *)
Definition set__dict (self : t) (d : Env) : t :=
  mk (dotenv_path self) (stream self) (Some d) (verbose self) (encoding self)
     (interpolate self) (override self) (base_env self).

(** [self._dict or {}] *)
Definition dict_or_empty (self : t) : Env :=
  match _dict self with Some d => d | None => PyDict.empty end.

(** What [parse] yields for the bindings it is given: the key and value
    of every binding that has a key. *)
Definition yielded (mappings : list Binding) : list (string * option string) :=
  omap (fun mapping => match key mapping with
                       | Some k => Some (k, value mapping)
                       | None => None
                       end) mappings.

Section Methods.
Context `{BindingStream} `{AtomTokenizer}.

(** [_get_stream], together with the read of the stream it yields: the
    text that [parse_stream] gets. *)
Definition _get_stream (self : t) : M string :=
  let path := default "" (dotenv_path self) in
  isfile <- (if nonempty path then os_path_isfile path else ret false) ;;
  if isfile then io_open_read path
  else match stream self with
       | Some handle => stream_read handle
       | None =>
           when (verbose self)
             (log (CouldNotFind (if nonempty path then path else ".env"))) ;;
           ret ""
       end.

(** [parse]: the pairs the generator yields when it is run to its end.
    The generator runs when [update_dict] consumes it; what it does (read
    the stream, log) and what [update_dict] reads before ([os.environ])
    do not touch each other, so it is run here before the call. *)
Definition parse (self : t) : M (list (string * option string)) :=
  text <- _get_stream self ;;
  let '(warnings, mappings) := with_warn_for_invalid_lines (parse_stream text) in
  modify (emit (EvLog <$> warnings)) ;;
  ret (yielded mappings).

(** [update_dict]; the new state of [self] comes with the result. *)
Definition update_dict (self : t) (raw_values : list (string * option string))
    : M (t * Env) :=
  let target_dict :=
    match _dict self with Some d => d | None => PyDict.empty end in
  target_dict' <-
    (if interpolate self
     then
       env <- read_base_env (base_env self) ;;
       let base_env :=
         if override self
         then PyDict.merge env (dict_or_empty self)
         else PyDict.merge (dict_or_empty self) env in
       ret (PyDict.update target_dict
              (resolve_variables raw_values (override self) base_env))
     else ret (PyDict.update target_dict raw_values)) ;;
  ret (set__dict self target_dict', target_dict').

(** [dict] *)
Definition dict (self : t) : M (t * Env) :=
  match _dict self with
  | Some d =>
      if PyDict.truthy d then ret (self, d)
      else raw_values <- parse self ;; update_dict self raw_values
  | None => raw_values <- parse self ;; update_dict self raw_values
  end.

(** The loop of [set_as_environment_variables]. *)
Fixpoint set_environ_loop (override : bool) (items : list (string * option string))
    : M unit :=
  match items with
  | [] => ret tt
  | (k, v) :: rest =>
      present <- gets (fun w => PyDict.contains (environ w) k) ;;
      (if present && negb override then ret tt
       else match v with
            | Some v => os_environ_setitem k v
            | None => ret tt
            end) ;;
      set_environ_loop override rest
  end.

Definition set_as_environment_variables (self : t) : M (t * bool) :=
  r <- dict self ;;
  let '(self', d) := r in
  set_environ_loop (override self) d ;;
  ret (self', true).

(** [get] *)
Definition get (self : t) (k : string) : M (t * option string) :=
  r <- dict self ;;
  let '(self', data) := r in
  match PyDict.get data k with
  | Some v => ret (self', v)
  | None =>
      when (verbose self) (log (KeyNotFound k (dotenv_path self))) ;;
      ret (self', None)
  end.

End Methods.
End DotEnv.

(** ** The chain loader *)

(** What [chained_dotenv_values] tells apart in its arguments: a [str] or
    path, an [io.IOBase] stream, anything else; [None] is the absent
    argument. *)
Inductive Argument : Type :=
  | ArgPath (path : string)
  | ArgStream (handle : nat)
  | ArgOther.

Section ChainLoader.
Context `{BindingStream} `{AtomTokenizer}.

(** The [for] loop of [chained_dotenv_values]. *)
Fixpoint chained_loop (arguments : list (option Argument)) (result : option DotEnv.t)
    (verbose interpolate : bool) (encoding : option string) (base_env : BaseEnv)
    : M (option DotEnv.t) :=
  match arguments with
  | [] => ret result
  | argument :: rest =>
      let dotenv_path :=
        match argument with Some (ArgPath path) => Some path | _ => None end in
      let stream :=
        match argument with Some (ArgStream handle) => Some handle | _ => None end in
      let cur :=
        DotEnv.__init__ dotenv_path stream verbose encoding interpolate true base_env in
      let result := match result with Some r => r | None => cur end in
      raw_values <- DotEnv.parse cur ;;
      r <- DotEnv.update_dict result raw_values ;;
      chained_loop rest (Some r.1) verbose interpolate encoding base_env
  end.

Definition chained_dotenv_values (dotenv_paths_or_streams : list (option Argument))
    (verbose interpolate : bool) (encoding : option string) (base_env : BaseEnv)
    : M Env :=
  if negb (match dotenv_paths_or_streams with [] => false | _ => true end)
     || existsb (fun arg => match arg with None => true | Some _ => false end)
          dotenv_paths_or_streams
  then raise (ValueError
    ("Filenames and/or stream arguments are required for chained loading. Use "
     +:+ "find_dotenv() to auto detect env-file"))
  else
    result <- chained_loop dotenv_paths_or_streams None
                verbose interpolate encoding base_env ;;
    match result with
    | None => raise AssertionError
    | Some result => r <- DotEnv.dict result ;; ret r.2
    end.

End ChainLoader.

(** ** Loading and reading one source *)

(** [find_dotenv()] looks at the call stack and walks up the directories;
    neither is part of the world here, so the path it returns (or what it
    raises) when it is called without arguments is left open.  It only
    looks: the world is as before. *)
Class DotenvFinder := find_dotenv : World -> Result string.

Section Loaders.
Context `{BindingStream} `{AtomTokenizer} `{DotenvFinder}.

(** [if dotenv_path is None and stream is None: dotenv_path = find_dotenv()] *)
Definition default_dotenv_path (dotenv_path : option string) (stream : option nat)
    : M (option string) :=
  match dotenv_path, stream with
  | None, None => path <- (fun w => (find_dotenv w, w)) ;; ret (Some path)
  | _, _ => ret dotenv_path
  end.

(** [load_dotenv]; the object it builds has [os.environ] as [base_env]. *)
Definition load_dotenv (dotenv_path : option string) (stream : option nat)
    (verbose override interpolate : bool) (encoding : option string) : M bool :=
  dotenv_path <- default_dotenv_path dotenv_path stream ;;
  let dotenv :=
    DotEnv.__init__ dotenv_path stream verbose encoding interpolate override OsEnviron in
  r <- DotEnv.set_as_environment_variables dotenv ;;
  ret r.2.

(** [dotenv_values] *)
Definition dotenv_values (dotenv_path : option string) (stream : option nat)
    (verbose override interpolate : bool) (encoding : option string)
    (base_env : BaseEnv) : M Env :=
  dotenv_path <- default_dotenv_path dotenv_path stream ;;
  r <- DotEnv.dict
         (DotEnv.__init__ dotenv_path stream verbose encoding interpolate override base_env) ;;
  ret r.2.

(** [get_key]: [DotEnv(dotenv_path, verbose=True).get(key_to_get)], the
    other arguments at their defaults. *)
Definition get_key (dotenv_path key_to_get : string) : M (option string) :=
  r <- DotEnv.get
         (DotEnv.__init__ (Some dotenv_path) None true None true true OsEnviron)
         key_to_get ;;
  ret r.2.

End Loaders.

(** ** The external collaborators, after the spec

    The theorems below hold for every tokenizer; the instances here are the
    ones the spec describes, for running the code on concrete files. *)

(** The text before the first character that [stop] accepts, and the text
    from that character on. *)
Fixpoint scan_until (stop : ascii -> bool) (s : list ascii)
    : option (list ascii * list ascii) :=
  match s with
  | [] => None
  | c :: rest =>
      if stop c then Some ([], s)
      else match scan_until stop rest with
           | Some (before, from) => Some (c :: before, from)
           | None => None
           end
  end.

Definition is_char (c : ascii) : ascii -> bool := fun c' => bool_decide (c' = c).

(** A reference at the head of [s], with the number of characters it
    takes: [${NAME}] or [${NAME:-DEFAULT}]. *)
Definition match_reference (s : list ascii) : option (Atom * nat) :=
  match s with
  | c1 :: c2 :: rest =>
      if is_char "$" c1 && is_char "{" c2
      then
        match scan_until (fun c => is_char "}" c || is_char ":" c) rest with
        | Some (name, c :: after) =>
            if is_char "}" c
            then Some (Reference (string_of_list_ascii name) None,
                       3 + List.length name)
            else
              match after with
              | c' :: rest' =>
                  if is_char "-" c'
                  then
                    match scan_until (is_char "}") rest' with
                    | Some (text, _) =>
                        Some (Reference (string_of_list_ascii name)
                                (Some (string_of_list_ascii text)),
                              5 + List.length name + List.length text)
                    | None => None
                    end
                  else None
              | [] => None
              end
        | _ => None
        end
      else None
  | _ => None
  end.

Definition literal_atom (text : list ascii) : list Atom :=
  match text with
  | [] => []
  | _ => [Literal (string_of_list_ascii text)]
  end.

(** [skip] characters of a reference are still to be passed over; [text]
    is the literal read since the last reference. *)
Fixpoint tokenize_atoms (skip : nat) (text : list ascii) (s : list ascii) : list Atom :=
  match s with
  | [] => literal_atom text
  | c :: rest =>
      match skip with
      | S n => tokenize_atoms n text rest
      | O =>
          match match_reference s with
          | Some (atom, n) => literal_atom text ++ atom :: tokenize_atoms (n - 1) [] rest
          | None => tokenize_atoms 0 (text ++ [c]) rest
          end
      end
  end.

(** Modelled from the spec: [parse_variables] of [variables.py], which is
    not among the sources.  A value is split into literal fragments and
    [${VAR}] or [${VAR:-default}] references, in order and without gaps. *)
Definition posix_variables (value : string) : list Atom :=
  tokenize_atoms 0 [] (list_ascii_of_string value).

#[export] Instance posix_tokenizer : AtomTokenizer := posix_variables.

(** The lines of a text, each with its newline. *)
Fixpoint split_lines (cur : list ascii) (s : list ascii) : list (list ascii) :=
  match s with
  | [] => match cur with [] => [] | _ => [cur] end
  | c :: rest =>
      if decide (c = ascii_of_nat 10) then (cur ++ [c]) :: split_lines [] rest
      else split_lines (cur ++ [c]) rest
  end.

Definition is_blank (c : ascii) : bool :=
  is_char " " c || is_char (ascii_of_nat 9) c || is_char (ascii_of_nat 10) c
  || is_char (ascii_of_nat 13) c.

Fixpoint lstrip (s : list ascii) : list ascii :=
  match s with
  | c :: rest => if is_blank c then lstrip rest else s
  | [] => []
  end.

Definition strip (s : list ascii) : list ascii := rev (lstrip (rev (lstrip s))).

Definition strip_export (s : list ascii) : list ascii :=
  if bool_decide (take 7 s = list_ascii_of_string "export ")
  then lstrip (drop 7 s)
  else s.

(** A value in single or double quotes stands for the text between them. *)
Definition unquote (s : list ascii) : list ascii :=
  match s with
  | q :: rest =>
      if is_char "'" q || is_char (ascii_of_nat 34) q
      then match rev rest with
           | q' :: inner => if decide (q' = q) then rev inner else s
           | [] => s
           end
      else s
  | [] => []
  end.

Definition parse_line (line_no : nat) (text : list ascii) : Binding :=
  let orig := Original.mk (string_of_list_ascii text) line_no in
  let body := strip_export (strip text) in
  if bool_decide (body = []) || bool_decide (take 1 body = ["#"%char])
  then mkBinding None None orig false
  else
      match scan_until (is_char "=") body with
      | Some (k, _ :: v) =>
          let k := strip k in
          if bool_decide (k = []) || existsb is_blank k
          then mkBinding None None orig true
          else mkBinding (Some (string_of_list_ascii k))
                 (Some (string_of_list_ascii (unquote (strip v)))) orig false
      | _ =>
          if existsb is_blank body
          then mkBinding None None orig true
          else mkBinding (Some (string_of_list_ascii body)) None orig false
      end.

Fixpoint parse_lines (line_no : nat) (lines : list (list ascii)) : list Binding :=
  match lines with
  | [] => []
  | text :: rest => parse_line line_no text :: parse_lines (S line_no) rest
  end.

(** Modelled from the spec: [parse_stream] of [parser.py], which is not
    among the sources.  One binding per line, in file order: blank and
    comment lines have no key, [[export ]KEY=VALUE] gives a key and a
    value (quotes taken off), [KEY] alone gives a key without value, any
    other line is marked as an error; [original] is the exact text of the
    line with its newline. *)
Definition line_bindings (text : string) : list Binding :=
  parse_lines 1 (split_lines [] (list_ascii_of_string text)).

#[export] Instance line_binding_stream : BindingStream := line_bindings.

(** A [find_dotenv] that finds no file: the source returns the empty
    string then. *)
#[export] Instance finds_nothing : DotenvFinder := fun _ => Ok "".

(** A POSIX platform: lines end with a line feed. *)
#[export] Instance posix : Platform := LF.

(** A [str.isalnum] for ASCII text, as the sample inputs are: it answers
    as the builtin does there, and takes a character outside ASCII for none
    of a letter or digit. *)
#[export, refine] Instance ascii_str : StrMethods := {| isalnum := ascii_isalnum |}.
Proof. reflexivity. Defined.

(** Temporary files are named after a prefix, with the first number that
    makes the name a new one. *)
#[export, refine] Instance fresh_temp_names : TempNames :=
  {| mkstemp := fun files => fresh_string "/tmp/tmp" files |}.
Proof. intros files. apply fresh_string_fresh. Defined.

(** ** Notions the statements use *)

(** The keys of a sequence of definitions in first-definition order: every
    key once, at the place of its first definition. *)
Fixpoint first_defs (ks : list string) : list string :=
  match ks with
  | [] => []
  | k :: rest => k :: filter (fun k' => k' <> k) (first_defs rest)
  end.

(** No files, no streams, no ambient variables, nothing done yet. *)
Definition empty_world : World := mkWorld ∅ ∅ [] [].

(** A [DotEnv] object is well formed when its [_dict], if any, is a
    dictionary. *)
Definition wf_self (self : DotEnv.t) : Prop :=
  match DotEnv._dict self with
  | Some d => PyDict.wf d
  | None => True
  end.

(** The files when the body starts: [path] is there, created empty if it
    was missing. *)
Definition files_at_start (path : string) (w : World) : gmap string string :=
  match fs w !! path with
  | Some _ => fs w
  | None => <[path := ""]> (fs w)
  end.

(** What [rewrite] has done when the body starts. *)
Definition events_at_start `{TempNames} (path : string) (w : World) : list Event :=
  match fs w !! path with
  | Some _ => []
  | None => [EvOpen path "w+"]
  end
  ++ [EvTempFile (mkstemp (files_at_start path w)); EvOpen path "r"].

(** Texts written one after the other. *)
Definition join (texts : list string) : string := foldr String.append EmptyString texts.

(** The text that a sequence of bindings was read from: their original
    lines, one after the other. *)
Definition text_of (mappings : list Binding) : string :=
  join ((fun mapping => Original.string (original mapping)) <$> mappings).

(** What [set_key] writes for one binding of the file. *)
Definition set_key_segment (key_to_set line_out : string) (mapping : Binding) : string :=
  if decide (key mapping = Some key_to_set) then line_out
  else Original.string (original mapping).

(** What [unset_key] writes for one binding of the file. *)
Definition unset_key_segment (key_to_unset : string) (mapping : Binding) : string :=
  if decide (key mapping = Some key_to_unset) then EmptyString
  else Original.string (original mapping).

(** Some binding has the key. *)
Definition has_key (k : string) (mappings : list Binding) : bool :=
  existsb (fun mapping => bool_decide (key mapping = Some k)) mappings.

(** Whether a value is absent or a string, whatever the string. *)
Definition presence (v : option string) : bool :=
  match v with Some _ => true | None => false end.

(** A value without references: its atoms are literals that make up the
    value. *)
Definition reference_free `{AtomTokenizer} (value : string) : Prop :=
  exists texts : list string,
    parse_variables value = Literal <$> texts /\ String.concat "" texts = value.

(** The line that [set_key] writes for a key and a value. *)
Definition set_key_line `{StrMethods} (k v quote_mode : string) (export : bool) : string :=
  let quote :=
    bool_decide (quote_mode = "always")
    || (bool_decide (quote_mode = "auto") && negb (isalnum v)) in
  let value_out := if quote then "'" +:+ escape_single_quotes v +:+ "'" else v in
  if export then "export " +:+ k +:+ "=" +:+ value_out +:+ LF
  else k +:+ "=" +:+ value_out +:+ LF.

(** The text that a text-mode handle reads from the file at a path. *)
Definition text_read (w : World) (path : string) : string :=
  universal_newlines (default "" (fs w !! path)).

(** The pairs that the file at a path yields. *)
Definition file_pairs `{BindingStream} (w : World) (path : string)
    : list (string * option string) :=
  DotEnv.yielded (parse_stream (text_read w path)).

(** What [os.environ] takes: the pairs with a value whose name and value
    [os.putenv] does not refuse. *)
Definition environ_accepts (items : list (string * option string)) : Prop :=
  forall k v : string, (k, Some v) ∈ items -> putenv_error k v = None.

(** The same, as a check that runs. *)
Definition environ_accepts_all (items : list (string * option string)) : bool :=
  forallb (fun item : string * option string =>
             match item.2 with
             | Some v => match putenv_error item.1 v with None => true | Some _ => false end
             | None => true
             end) items.

(** One step of a chain: the pairs of one more source are resolved with
    [override] on against the base environment overlaid with the mapping
    so far (or taken as they are without interpolation), and assigned to
    the mapping so far. *)
Definition chain_step `{AtomTokenizer} (interpolate : bool) (env d : Env)
    (raw_values : list (string * option string)) : Env :=
  PyDict.update d
    (if interpolate
     then resolve_variables raw_values true (PyDict.merge env d)
     else raw_values).

(** ** Sample inputs *)

Definition lines (texts : list string) : string :=
  join ((fun text => text +:+ LF) <$> texts).

(** An env file with a comment, a binding, a malformed line, a reference
    and a key without value. *)
Definition sample_env : string :=
  lines ["# settings"; "A=1"; "not a binding"; "B=${A}"; "C"].

Definition sample_world : World :=
  mkWorld
    {[ ".env" := sample_env;
       "a.env" := lines ["A=1"];
       "b.env" := lines ["A=2"; "B=${A}"];
       "c.env" := lines ["B=${A}"] ]}
    {[ 0 := lines ["A=1"; "C"] ]}
    [("A", "9"); ("C", "kept")]
    [].

(** A world whose only file holds a comment and no binding. *)
Definition comment_only_world : World :=
  mkWorld {[ "empty.env" := lines ["# nothing here"] ]} ∅ [("A", "9")] [].

(** A carriage return and a line feed, as lines end on Windows. *)
Definition CRLF : string := String char_CR (String char_LF EmptyString).

(** A world whose only file has a comment and a binding on lines that end
    with a carriage return and a line feed. *)
Definition crlf_env : string := "# settings" +:+ CRLF +:+ "A=1" +:+ CRLF.

Definition crlf_world : World := mkWorld {[ "crlf.env" := crlf_env ]} ∅ [] [].


(** A body that copies the text it reads and returns its length. *)
Definition copying_body (source : string) : BodyRun nat :=
  mkBodyRun [] source (Ok (String.length source)).

(** A body that writes part of the new text and then fails. *)
Definition failing_body (source : string) : BodyRun unit :=
  mkBodyRun [] "A=" (Raise (OtherException "disk full")).

(** What one call of [update_dict] assigns to the accumulated dictionary,
    in order: the resolved pairs, or the raw ones without interpolation. *)
Definition new_definitions `{AtomTokenizer} (self : DotEnv.t)
    (raw_values : list (string * option string)) (w : World) : Env :=
  if DotEnv.interpolate self
  then
    let env := current_base_env (DotEnv.base_env self) w in
    resolve_variables raw_values (DotEnv.override self)
      (if DotEnv.override self
       then PyDict.merge env (DotEnv.dict_or_empty self)
       else PyDict.merge (DotEnv.dict_or_empty self) env)
  else raw_values.

(** * Facts about dictionaries *)

Section PyDictFacts.
Context {V : Type}.
Implicit Types (d : PyDict.t V) (k : string) (v : V).

Lemma get_set d k v k' :
  PyDict.get (PyDict.set d k v) k' = if decide (k = k') then Some v else PyDict.get d k'.
Proof.
  induction d as [|[k0 v0] d IH]; simpl.
  - repeat case_decide; congruence.
  - repeat (case_decide; simpl); try congruence.
Qed.

Lemma get_set_eq d k v : PyDict.get (PyDict.set d k v) k = Some v.
Proof. rewrite get_set. by case_decide. Qed.

Lemma get_set_ne d k v k' : k <> k' -> PyDict.get (PyDict.set d k v) k' = PyDict.get d k'.
Proof. intros. rewrite get_set. by case_decide. Qed.


Lemma keys_set d k v :
  PyDict.keys (PyDict.set d k v)
  = if decide (k ∈ PyDict.keys d) then PyDict.keys d else PyDict.keys d ++ [k].
Proof.
  unfold PyDict.keys. induction d as [|[k0 v0] d IH]; csimpl.
  - done.
  - destruct (decide (k0 = k)) as [->|Hne]; csimpl.
    + rewrite decide_True by left. done.
    + rewrite IH. destruct (decide (k ∈ d.*1)) as [Hin|Hin].
      * rewrite decide_True by (by right). done.
      * rewrite decide_False; [done|]. rewrite not_elem_of_cons. done.
Qed.

Lemma set_wf d k v : PyDict.wf d -> PyDict.wf (PyDict.set d k v).
Proof.
  unfold PyDict.wf. intros Hd. rewrite keys_set. case_decide; [done|].
  apply NoDup_app. split_and!; [done | | apply NoDup_singleton].
  intros k' Hk' ->%list_elem_of_singleton. done.
Qed.

Lemma update_wf d items : PyDict.wf d -> PyDict.wf (PyDict.update d items).
Proof.
  revert d. induction items as [|[k v] items IH]; simpl; [done|].
  intros d Hd. by apply IH, set_wf.
Qed.

Lemma merge_wf (a b : PyDict.t V) : PyDict.wf (PyDict.merge a b).
Proof.
  unfold PyDict.merge. apply update_wf. apply update_wf. apply NoDup_nil_2.
Qed.

Lemma get_update_notin d items k :
  k ∉ items.*1 -> PyDict.get (PyDict.update d items) k = PyDict.get d k.
Proof.
  revert d. induction items as [|[k0 v0] items IH]; simpl; [done|].
  intros d [Hne Hnotin]%not_elem_of_cons.
  rewrite IH by done. by apply get_set_ne.
Qed.

Lemma get_update_wf d items k v :
  PyDict.wf items -> PyDict.get items k = Some v ->
  PyDict.get (PyDict.update d items) k = Some v.
Proof.
  unfold PyDict.wf, PyDict.keys.
  revert d. induction items as [|[k0 v0] items IH]; simpl; [done|].
  intros d [Hk0 Hitems]%NoDup_cons. case_decide; subst.
  - intros [= ->]. rewrite get_update_notin by done. apply get_set_eq.
  - intros. by apply IH.
Qed.

End PyDictFacts.

(** * The merge engine *)

Section MergeEngineFacts.
Context `{AtomTokenizer}.

Lemma resolve_value_literal (override : bool) (base_env new_values : Env)
    (value : string) :
  parse_variables value = [Literal value] ->
  resolve_value override base_env new_values (Some value) = Some value.
Proof.
  intros Hatoms. unfold resolve_value. by rewrite Hatoms.
Qed.

(** The value of a lone reference [${name}] is what the lookup environment
    binds [name] to. *)
Lemma resolve_value_reference (override : bool) (base_env new_values : Env)
    (value name v : string) :
  parse_variables value = [Reference name None] ->
  PyDict.get (if override
              then PyDict.update (PyDict.update PyDict.empty base_env) new_values
              else PyDict.update (PyDict.update PyDict.empty new_values) base_env)
    name = Some (Some v) ->
  resolve_value override base_env new_values (Some value) = Some v.
Proof.
  intros Hatoms Hget. unfold resolve_value. rewrite Hatoms. cbn.
  destruct override; by rewrite Hget.
Qed.

(** C3. Resolving [A=1, B=${A}] with [override] true gives [B == "1"]
    whatever the base environment holds; with [override] false and a base
    environment in which [A] is ["9"], it gives [B == "9"]. *)
Theorem self_reference_precedence
    (Hone : parse_variables "1" = [Literal "1"])
    (Href : parse_variables "${A}" = [Reference "A" None]) :
  (forall base_env : Env,
     PyDict.get
       (resolve_variables [("A", Some "1"); ("B", Some "${A}")] true base_env)
       "B" = Some (Some "1"))
  /\ (forall base_env : Env,
        PyDict.wf base_env ->
        PyDict.get base_env "A" = Some (Some "9") ->
        PyDict.get
          (resolve_variables [("A", Some "1"); ("B", Some "${A}")] false base_env)
          "B" = Some (Some "9")).
Proof.
  split.
  - intros base_env. unfold resolve_variables. cbn [resolve_variables_from].
    rewrite (resolve_value_literal _ _ _ "1") by done. cbn [PyDict.set PyDict.empty].
    rewrite (resolve_value_reference true _ _ "${A}" "A" "1"); [done | done |].
    cbn [PyDict.update]. apply get_set_eq.
  - intros base_env Hwf HA. unfold resolve_variables. cbn [resolve_variables_from].
    rewrite (resolve_value_literal _ _ _ "1") by done. cbn [PyDict.set PyDict.empty].
    rewrite (resolve_value_reference false _ _ "${A}" "A" "9"); [done | done |].
    by apply get_update_wf.
Qed.

(** ** First-definition order *)

Lemma filter_notin_nil (l : list string) : filter (fun k => k ∉ @nil string) l = l.
Proof.
  induction l as [|k l IH]; [done|].
  rewrite filter_cons_True by apply not_elem_of_nil. by rewrite IH.
Qed.

Lemma filter_ne_notin (k : string) (l : list string) :
  k ∉ l -> filter (fun k' => k' <> k) l = l.
Proof.
  induction l as [|k0 l IH]; [done|].
  intros [Hne Hnotin]%not_elem_of_cons.
  rewrite filter_cons_True by done. by rewrite IH.
Qed.

Lemma first_defs_NoDup (ks : list string) : NoDup (first_defs ks).
Proof.
  induction ks as [|k ks IH]; cbn [first_defs]; [apply NoDup_nil_2|].
  apply NoDup_cons. split.
  - rewrite list_elem_of_filter. by intros [? _].
  - by apply NoDup_filter.
Qed.

Lemma first_defs_elem (ks : list string) (k : string) :
  k ∈ first_defs ks -> k ∈ ks.
Proof.
  induction ks as [|k0 ks IH]; cbn [first_defs]; [done|].
  rewrite !elem_of_cons, list_elem_of_filter.
  intros [->|[_ Hin]]; [by left | right; by apply IH].
Qed.

Lemma first_defs_id (ks : list string) : NoDup ks -> first_defs ks = ks.
Proof.
  induction ks as [|k ks IH]; [done|].
  intros [Hk Hks]%NoDup_cons. cbn [first_defs].
  rewrite IH by done. by rewrite filter_ne_notin.
Qed.

(** Assigning to [k] in a dictionary whose keys are [ks], and then adding
    the new keys among [l], is adding the new keys among [k :: l]. *)
Lemma first_defs_step (ks l : list string) (k : string) :
  let ks' := if decide (k ∈ ks) then ks else ks ++ [k] in
  ks' ++ filter (fun k' => k' ∉ ks') l
  = ks ++ filter (fun k' => k' ∉ ks) (k :: filter (fun k' => k' <> k) l).
Proof.
  cbv zeta. destruct (decide (k ∈ ks)) as [Hin|Hnotin].
  - rewrite filter_cons_False by (by intros Hn). f_equal.
    symmetry. apply list_filter_filter_l. intros k' Hk' ->. done.
  - rewrite filter_cons_True by done. rewrite <- app_assoc. cbn [app]. do 2 f_equal.
    rewrite list_filter_filter. apply list_filter_iff.
    intros k'. rewrite not_elem_of_app, list_elem_of_singleton. done.
Qed.

Lemma keys_update {V} (d : PyDict.t V) (items : list (string * V)) :
  PyDict.keys (PyDict.update d items)
  = PyDict.keys d ++ filter (fun k => k ∉ PyDict.keys d) (first_defs items.*1).
Proof.
  revert d. induction items as [|[k v] items IH]; intros d.
  - cbn. by rewrite app_nil_r.
  - cbn [PyDict.update]. rewrite IH, keys_set. apply first_defs_step.
Qed.

Lemma keys_resolve_variables_from (new_values : Env)
    (values : list (string * option string)) (override : bool) (base_env : Env) :
  PyDict.keys (resolve_variables_from new_values values override base_env)
  = PyDict.keys new_values
    ++ filter (fun k => k ∉ PyDict.keys new_values) (first_defs values.*1).
Proof.
  revert new_values. induction values as [|[k v] values IH]; intros new_values.
  - cbn. by rewrite app_nil_r.
  - cbn [resolve_variables_from]. rewrite IH, keys_set. apply first_defs_step.
Qed.

Lemma keys_resolve_variables (values : list (string * option string))
    (override : bool) (base_env : Env) :
  PyDict.keys (resolve_variables values override base_env) = first_defs values.*1.
Proof.
  unfold resolve_variables. rewrite keys_resolve_variables_from.
  apply filter_notin_nil.
Qed.

Lemma fst_resolve_variables (values : list (string * option string))
    (override : bool) (base_env : Env) :
  (resolve_variables values override base_env).*1 = first_defs values.*1.
Proof. apply keys_resolve_variables. Qed.

Lemma resolve_variables_wf (values : list (string * option string))
    (override : bool) (base_env : Env) :
  PyDict.wf (resolve_variables values override base_env).
Proof. unfold PyDict.wf. rewrite keys_resolve_variables. apply first_defs_NoDup. Qed.

Lemma resolve_variables_from_app (new_values : Env)
    (values values' : list (string * option string)) (override : bool) (base_env : Env) :
  resolve_variables_from new_values (values ++ values') override base_env
  = resolve_variables_from
      (resolve_variables_from new_values values override base_env)
      values' override base_env.
Proof.
  revert new_values. induction values as [|[k v] values IH]; intros new_values; [done|].
  cbn [app resolve_variables_from]. apply IH.
Qed.

(** One more pair: the dictionary resolved so far, with the key assigned
    the value resolved against it. *)
Lemma resolve_variables_snoc (values : list (string * option string))
    (k : string) (v : option string) (override : bool) (base_env : Env) :
  resolve_variables (values ++ [(k, v)]) override base_env
  = let resolved := resolve_variables values override base_env in
    PyDict.set resolved k (resolve_value override base_env resolved v).
Proof. unfold resolve_variables. by rewrite resolve_variables_from_app. Qed.

(** [update_dict] never raises and leaves the world alone. *)
Lemma update_dict_run (self : DotEnv.t) (raw_values : list (string * option string))
    (w : World) :
  let d := PyDict.update (DotEnv.dict_or_empty self) (new_definitions self raw_values w) in
  DotEnv.update_dict self raw_values w = (Ok (DotEnv.set__dict self d, d), w).
Proof.
  unfold DotEnv.update_dict, new_definitions, DotEnv.dict_or_empty,
    read_base_env, gets, bind, ret.
  by destruct (DotEnv.interpolate self).
Qed.

Lemma keys_new_definitions (self : DotEnv.t)
    (raw_values : list (string * option string)) (w : World) :
  first_defs (new_definitions self raw_values w).*1 = first_defs raw_values.*1.
Proof.
  unfold new_definitions. destruct (DotEnv.interpolate self); [|done].
  rewrite fst_resolve_variables. apply first_defs_id, first_defs_NoDup.
Qed.

(** C5. The mapping returned by [resolve_variables] has its keys in
    first-definition order, and one more pair for a key it already has
    changes that key's value where it stands; [update_dict] keeps the keys
    it has accumulated in place, appends the new ones in first-definition
    order, and changes the value of no key that is not defined again. *)
Theorem order_preservation (values : list (string * option string))
    (override : bool) (base_env : Env) :
  let resolved := resolve_variables values override base_env in
  PyDict.keys resolved = first_defs values.*1
  /\ (forall (k : string) (v : option string),
        k ∈ PyDict.keys resolved ->
        let resolved' := resolve_variables (values ++ [(k, v)]) override base_env in
        PyDict.keys resolved' = PyDict.keys resolved
        /\ PyDict.get resolved' k = Some (resolve_value override base_env resolved v)
        /\ forall k' : string, k' <> k -> PyDict.get resolved' k' = PyDict.get resolved k')
  /\ (forall (self : DotEnv.t) (w : World),
        exists d : Env,
          DotEnv.update_dict self values w = (Ok (DotEnv.set__dict self d, d), w)
          /\ PyDict.keys d
             = PyDict.keys (DotEnv.dict_or_empty self)
               ++ filter (fun k => k ∉ PyDict.keys (DotEnv.dict_or_empty self))
                    (first_defs values.*1)
          /\ forall k : string,
               k ∉ values.*1 ->
               PyDict.get d k = PyDict.get (DotEnv.dict_or_empty self) k).
Proof.
  cbv zeta. split_and!.
  - apply keys_resolve_variables.
  - intros k v Hin. rewrite resolve_variables_snoc. cbv zeta. split_and!.
    + rewrite keys_set. by rewrite decide_True.
    + apply get_set_eq.
    + intros k' Hne. by apply get_set_ne.
  - intros self w. eexists. split; [apply update_dict_run|]. split.
    + by rewrite keys_update, keys_new_definitions.
    + intros k Hnotin. apply get_update_notin.
      unfold new_definitions. destruct (DotEnv.interpolate self); [|done].
      rewrite fst_resolve_variables.
      intros Hin. by apply Hnotin, first_defs_elem.
Qed.

Lemma resolve_variables_single_literal (name value : string) (override : bool)
    (base_env : Env) :
  parse_variables value = [Literal value] ->
  resolve_variables [(name, Some value)] override base_env = [(name, Some value)].
Proof.
  intros Hatoms. unfold resolve_variables. cbn [resolve_variables_from].
  by rewrite resolve_value_literal.
Qed.

(** C1, as the code has it. With interpolation on, base environment
    [{A: "1"}] and file pairs [[(A, "2")]], the mapping that [update_dict]
    returns maps [A] to ["2"] when [override] is true and when it is
    false. *)
Theorem merge_override_precedence
    (Htwo : parse_variables "2" = [Literal "2"])
    (dotenv_path : option string) (stream : option nat) (verbose : bool)
    (encoding : option string) (override : bool) (w : World) :
  let self := DotEnv.__init__ dotenv_path stream verbose encoding true override
                (Mapping [("A", Some "1")]) in
  DotEnv.update_dict self [("A", Some "2")] w
  = (Ok (DotEnv.set__dict self [("A", Some "2")], [("A", Some "2")]), w).
Proof.
  cbv zeta. rewrite update_dict_run. unfold new_definitions.
  cbn [DotEnv.interpolate DotEnv.__init__].
  by rewrite resolve_variables_single_literal.
Qed.

End MergeEngineFacts.

(** * The chain loader *)

Lemma bind_Ok {A B} (m : M A) (k : A -> M B) (w w' : World) (a : A) :
  m w = (Ok a, w') -> bind m k w = k a w'.
Proof. intros Hm. unfold bind. by rewrite Hm. Qed.

Section ChainLoaderFacts.
Context `{BindingStream} `{AtomTokenizer}.

(** Parsing a file that is there: it is opened and read, the warnings for
    its malformed lines are logged, and nothing else happens. *)
Lemma parse_file (self : DotEnv.t) (path text : string) (w : World) :
  DotEnv.dotenv_path self = Some path ->
  nonempty path = true ->
  fs w !! path = Some text ->
  DotEnv.parse self w
  = (Ok (DotEnv.yielded (parse_stream (universal_newlines text))),
     emit (EvLog <$> (with_warn_for_invalid_lines
                        (parse_stream (universal_newlines text))).1)
       (emit [EvOpen path "r"] w)).
Proof.
  intros Hpath Hne Hfile.
  unfold DotEnv.parse, DotEnv._get_stream. rewrite Hpath.
  cbv zeta. unfold default. cbn [from_option id]. rewrite Hne.
  unfold os_path_isfile, io_open_read, bind, gets, modify, ret.
  rewrite Hfile. rewrite bool_decide_true by eauto. cbn [fs emit].
  rewrite Hfile. done.
Qed.

Lemma resolve_variables_chain (base_env : Env)
    (Htwo : parse_variables "2" = [Literal "2"])
    (Href : parse_variables "${A}" = [Reference "A" None]) :
  resolve_variables [("A", Some "2"); ("B", Some "${A}")] true base_env
  = [("A", Some "2"); ("B", Some "2")].
Proof.
  unfold resolve_variables. cbn [resolve_variables_from].
  rewrite (resolve_value_literal _ _ _ "2") by done. cbn [PyDict.set PyDict.empty].
  rewrite (resolve_value_reference true _ _ "${A}" "A" "2"); [done | done |].
  cbn [PyDict.update]. apply get_set_eq.
Qed.

Lemma resolve_variables_aggregate (base_env : Env)
    (Href : parse_variables "${A}" = [Reference "A" None]) :
  resolve_variables [("B", Some "${A}")] true
    (PyDict.merge base_env [("A", Some "1")])
  = [("B", Some "1")].
Proof.
  unfold resolve_variables. cbn [resolve_variables_from].
  rewrite (resolve_value_reference true _ _ "${A}" "A" "1"); [done | done |].
  cbn [PyDict.update PyDict.empty]. apply get_update_wf.
  - apply merge_wf.
  - unfold PyDict.merge. cbn [PyDict.update]. apply get_set_eq.
Qed.

(** C4. Two files read in a chain, the first giving [A=1] and the second
    [A=2, B=${A}], yield [{A: "2", B: "2"}] whatever the base environment;
    and when the second file gives only [B=${A}], its reference sees the
    [A] of the first file before any [A] of the base environment.  The
    bindings of a file are those of its text as the handle reads it. *)
Theorem chain_loading (p1 p2 p3 text1 text2 text3 : string)
    (verbose : bool) (encoding : option string) (base_env : BaseEnv) (w : World)
    (Hp1 : nonempty p1 = true) (Hp2 : nonempty p2 = true) (Hp3 : nonempty p3 = true)
    (Hf1 : fs w !! p1 = Some text1)
    (Hf2 : fs w !! p2 = Some text2)
    (Hf3 : fs w !! p3 = Some text3)
    (Hb1 : DotEnv.yielded (parse_stream (universal_newlines text1)) = [("A", Some "1")])
    (Hb2 : DotEnv.yielded (parse_stream (universal_newlines text2))
           = [("A", Some "2"); ("B", Some "${A}")])
    (Hb3 : DotEnv.yielded (parse_stream (universal_newlines text3)) = [("B", Some "${A}")])
    (Hone : parse_variables "1" = [Literal "1"])
    (Htwo : parse_variables "2" = [Literal "2"])
    (Href : parse_variables "${A}" = [Reference "A" None]) :
  (chained_dotenv_values [Some (ArgPath p1); Some (ArgPath p2)]
     verbose true encoding base_env w).1
  = Ok [("A", Some "2"); ("B", Some "2")]
  /\ (chained_dotenv_values [Some (ArgPath p1); Some (ArgPath p3)]
        verbose true encoding base_env w).1
     = Ok [("A", Some "1"); ("B", Some "1")].
Proof.
  split.
  - unfold chained_dotenv_values. cbn [negb existsb orb chained_loop].
    erewrite bind_Ok; cycle 1.
    { erewrite bind_Ok by (by eapply parse_file).
      rewrite Hb1. erewrite bind_Ok by apply update_dict_run.
      erewrite bind_Ok by (by eapply parse_file).
      rewrite Hb2. erewrite bind_Ok by apply update_dict_run.
      reflexivity. }
    cbn [fst]. unfold new_definitions.
    cbn [DotEnv.interpolate DotEnv.override DotEnv.__init__ DotEnv.set__dict
         DotEnv.dict_or_empty DotEnv._dict DotEnv.base_env].
    rewrite resolve_variables_single_literal by done.
    rewrite resolve_variables_chain by done. done.
  - unfold chained_dotenv_values. cbn [negb existsb orb chained_loop].
    erewrite bind_Ok; cycle 1.
    { erewrite bind_Ok by (by eapply parse_file).
      rewrite Hb1. erewrite bind_Ok by apply update_dict_run.
      erewrite bind_Ok by (by eapply parse_file).
      rewrite Hb3. erewrite bind_Ok by apply update_dict_run.
      reflexivity. }
    cbn [fst]. unfold new_definitions.
    cbn [DotEnv.interpolate DotEnv.override DotEnv.__init__ DotEnv.set__dict
         DotEnv.dict_or_empty DotEnv._dict DotEnv.base_env].
    rewrite resolve_variables_single_literal by done.
    cbn [PyDict.update PyDict.set PyDict.empty].
    rewrite resolve_variables_aggregate by done. done.
Qed.

End ChainLoaderFacts.

(** * Loading into the ambient environment *)

Section EnvironFacts.
Context `{BindingStream} `{AtomTokenizer}.

(** [_get_stream] and [parse] never raise, and leave files and ambient
    environment as they are. *)
Lemma get_stream_run (self : DotEnv.t) (w : World) :
  exists (text : string) (w' : World),
    DotEnv._get_stream self w = (Ok text, w')
    /\ fs w' = fs w /\ environ w' = environ w.
Proof.
  unfold DotEnv._get_stream. cbv zeta.
  set (path := default "" (DotEnv.dotenv_path self)).
  assert (Hnofile : exists (text : string) (w' : World),
    match DotEnv.stream self with
    | Some handle => stream_read handle
    | None =>
        when (DotEnv.verbose self)
          (log (CouldNotFind (if nonempty path then path else ".env"))) ;;
        ret ""
    end w = (Ok text, w') /\ fs w' = fs w /\ environ w' = environ w).
  { unfold stream_read, log, when, bind, gets, modify, ret.
    destruct (DotEnv.stream self); [by eauto|].
    destruct (DotEnv.verbose self); by eauto. }
  destruct (nonempty path).
  - unfold os_path_isfile. erewrite bind_Ok by (unfold gets; reflexivity).
    destruct (fs w !! path) as [text|] eqn:Hfile.
    + rewrite bool_decide_true by eauto.
      unfold io_open_read, bind, gets, modify, ret. rewrite Hfile. by eauto.
    + rewrite bool_decide_false by (by intros [? ?]). exact Hnofile.
  - erewrite bind_Ok by (unfold ret; reflexivity). exact Hnofile.
Qed.

Lemma parse_run (self : DotEnv.t) (w : World) :
  exists (raw_values : list (string * option string)) (w' : World),
    DotEnv.parse self w = (Ok raw_values, w')
    /\ fs w' = fs w /\ environ w' = environ w.
Proof.
  destruct (get_stream_run self w) as (text & w1 & Hrun & Hfs & Henv).
  unfold DotEnv.parse. erewrite bind_Ok by done.
  destruct (with_warn_for_invalid_lines (parse_stream text)) as [warnings mappings].
  unfold bind, modify, ret. cbn. eauto.
Qed.

(** [dict] never raises; what it returns is the [_dict] of the object
    afterwards, and a dictionary. *)
Lemma dict_run (self : DotEnv.t) (w : World) :
  wf_self self ->
  exists (self' : DotEnv.t) (d : Env) (w' : World),
    DotEnv.dict self w = (Ok (self', d), w')
    /\ DotEnv._dict self' = Some d /\ PyDict.wf d
    /\ fs w' = fs w /\ environ w' = environ w.
Proof.
  intros Hwf.
  assert (Hparsed : exists (self' : DotEnv.t) (d : Env) (w' : World),
    (bind (DotEnv.parse self) (fun raw_values => DotEnv.update_dict self raw_values)) w
      = (Ok (self', d), w')
    /\ DotEnv._dict self' = Some d /\ PyDict.wf d
    /\ fs w' = fs w /\ environ w' = environ w).
  { destruct (parse_run self w) as (raw_values & w1 & Hrun & Hfs & Henv).
    erewrite bind_Ok by done. rewrite update_dict_run. cbv zeta.
    do 3 eexists. split; [done|]. split_and!; [done | | done | done].
    apply update_wf. unfold wf_self in Hwf. unfold DotEnv.dict_or_empty.
    destruct (DotEnv._dict self); [done | apply NoDup_nil_2]. }
  unfold DotEnv.dict. unfold wf_self in Hwf.
  destruct (DotEnv._dict self) as [d|] eqn:Hd; [|done].
  destruct (PyDict.truthy d); [|done].
  unfold ret. by eauto 10.
Qed.

Lemma putenv_error_ValueError (name value : string) (e : Exn) :
  putenv_error name value = Some e -> exists msg : string, e = ValueError msg.
Proof.
  unfold putenv_error.
  destruct (has_char char_NUL name || has_char char_NUL value);
    [intros [= <-]; by eexists|].
  destruct (negb (nonempty name) || has_char "=" name); [|done].
  intros [= <-]. by eexists.
Qed.

(** One assignment to [os.environ]. *)
Lemma os_environ_setitem_run (name value : string) (w : World) :
  os_environ_setitem name value w
  = match putenv_error name value with
    | Some e => (Raise e, w)
    | None => (Ok tt, with_environ (fun env => PyDict.set env name value) w)
    end.
Proof. unfold os_environ_setitem. by destruct (putenv_error name value). Qed.

(** One turn of the loop of [set_as_environment_variables]. *)
Lemma set_environ_loop_cons (override : bool) (k : string) (v : option string)
    (items : list (string * option string)) (w : World) :
  DotEnv.set_environ_loop override ((k, v) :: items) w
  = if PyDict.contains (environ w) k && negb override
    then DotEnv.set_environ_loop override items w
    else match v with
         | None => DotEnv.set_environ_loop override items w
         | Some value =>
             match putenv_error k value with
             | Some e => (Raise e, w)
             | None =>
                 DotEnv.set_environ_loop override items
                   (with_environ (fun env => PyDict.set env k value) w)
             end
         end.
Proof.
  cbn [DotEnv.set_environ_loop]. unfold bind at 1 2. unfold gets at 1.
  destruct (PyDict.contains (environ w) k && negb override); [done|].
  destruct v as [value|]; [|done].
  rewrite os_environ_setitem_run. by destruct (putenv_error k value).
Qed.

(** The loop writes to [os.environ] only the keys it meets with a value,
    and it stops early only with a [ValueError] of [os.environ]. *)
Lemma set_environ_loop_run (override : bool) (items : list (string * option string))
    (w : World) :
  exists (r : Result unit) (w' : World),
    DotEnv.set_environ_loop override items w = (r, w')
    /\ (r = Ok tt \/ exists msg : string, r = Raise (ValueError msg))
    /\ fs w' = fs w
    /\ forall k : string,
         (forall v : string, (k, Some v) ∉ items) ->
         PyDict.get (environ w') k = PyDict.get (environ w) k.
Proof.
  revert w. induction items as [|[k0 v0] items IH]; intros w.
  - exists (Ok tt), w. split_and!; [done | by left | done | done].
  - rewrite set_environ_loop_cons.
    assert (Hskip : exists (r : Result unit) (w' : World),
      DotEnv.set_environ_loop override items w = (r, w')
      /\ (r = Ok tt \/ exists msg : string, r = Raise (ValueError msg))
      /\ fs w' = fs w
      /\ forall k : string,
           (forall v : string, (k, Some v) ∉ (k0, v0) :: items) ->
           PyDict.get (environ w') k = PyDict.get (environ w) k).
    { destruct (IH w) as (r & w' & Hrun & Hr & Hfs & Hframe).
      exists r, w'. split_and!; [done | done | done |].
      intros k Hk. apply Hframe. intros v Hin. apply (Hk v). by right. }
    destruct (PyDict.contains (environ w) k0 && negb override); [exact Hskip|].
    destruct v0 as [v0|]; [|exact Hskip]. clear Hskip.
    destruct (putenv_error k0 v0) as [e|] eqn:Herr.
    + apply putenv_error_ValueError in Herr as [msg ->].
      exists (Raise (ValueError msg)), w.
      split_and!; [done | right; by eexists | done | done].
    + destruct (IH (with_environ (fun env => PyDict.set env k0 v0) w))
        as (r & w' & Hrun & Hr & Hfs & Hframe).
      exists r, w'. split_and!; [done | done | done |].
      intros k Hk. rewrite Hframe by (intros v Hin; apply (Hk v); by right).
      cbn [environ with_environ]. apply get_set_ne.
      intros ->. apply (Hk v0). left.
Qed.

Lemma environ_accepts_checked (items : list (string * option string)) :
  environ_accepts_all items = true -> environ_accepts items.
Proof.
  unfold environ_accepts_all, environ_accepts. rewrite forallb_forall.
  intros Hall k v Hin. apply list_elem_of_In, Hall in Hin. cbn in Hin.
  by destruct (putenv_error k v).
Qed.

(** The loop runs to its end when [os.environ] takes every pair. *)
Lemma set_environ_loop_returns (override : bool) (items : list (string * option string))
    (w : World) :
  environ_accepts items ->
  exists w' : World, DotEnv.set_environ_loop override items w = (Ok tt, w').
Proof.
  unfold environ_accepts.
  revert w. induction items as [|[k0 v0] items IH]; intros w Haccepts.
  - by exists w.
  - rewrite set_environ_loop_cons.
    assert (Hrest : forall k v : string, (k, Some v) ∈ items -> putenv_error k v = None).
    { intros k v Hin. apply Haccepts. by right. }
    destruct (PyDict.contains (environ w) k0 && negb override); [by apply IH|].
    destruct v0 as [v0|]; [|by apply IH].
    rewrite (Haccepts k0 v0) by left. by apply IH.
Qed.

(** [set_as_environment_variables], given what [dict] returns. *)
Lemma set_as_environment_variables_run (self self' : DotEnv.t) (d : Env) (w w1 : World) :
  DotEnv.dict self w = (Ok (self', d), w1) ->
  DotEnv.set_as_environment_variables self w
  = match DotEnv.set_environ_loop (DotEnv.override self) d w1 with
    | (Ok _, w') => (Ok (self', true), w')
    | (Raise e, w') => (Raise e, w')
    end.
Proof.
  intros Hrun. unfold DotEnv.set_as_environment_variables.
  erewrite bind_Ok by done. cbv beta iota. unfold bind, ret.
  by destruct (DotEnv.set_environ_loop (DotEnv.override self) d w1) as [[[]|e] w'].
Qed.


End EnvironFacts.

(** * The rewrite transaction *)

(** Unfolding the primitives down to functions on the world, and reading
    the fields of a world that has been written out. *)
Ltac unfold_io :=
  unfold os_path_isfile, os_path_exists, io_open_write, io_open_read,
    tempfile_NamedTemporaryFile, shutil_move, os_unlink, stream_read, log,
    when, bind, gets, modify, ret, raise.

Ltac simpl_world := cbn [negb fs emit with_fs trace streams environ].

(** Nothing is written as nothing. *)
Lemma newline_write_empty `{Platform} : newline_write "" = "".
Proof. reflexivity. Qed.

Section RewriteFacts.
Context `{Platform} `{TempNames}.

(** Creating the temporary file, filling it and removing it again leaves
    the files as they were. *)
Lemma temp_file_removed (files : gmap string string) (text : string) :
  delete (mkstemp files) (<[mkstemp files := text]> (<[mkstemp files := ""]> files))
  = files.
Proof.
  rewrite insert_insert_eq, delete_insert_eq. apply delete_id, mkstemp_fresh.
Qed.

(** Moving the temporary file onto [path] leaves [path] with its text and
    no temporary file. *)
Lemma temp_file_moved (files : gmap string string) (path text : string) :
  <[path := text]>
    (delete (mkstemp files) (<[mkstemp files := text]> (<[mkstemp files := ""]> files)))
  = <[path := text]> files.
Proof. by rewrite temp_file_removed. Qed.

Lemma mkstemp_ne (files : gmap string string) (path : string) :
  is_Some (files !! path) -> mkstemp files <> path.
Proof. intros [text Hpath] Heq. rewrite <- Heq, mkstemp_fresh in Hpath. done. Qed.

(** A run of [rewrite], whole: the body gets the text read from [path]
    (empty if the file had to be created); if it raises, the temporary file
    is unlinked and the exception goes on, otherwise the temporary file,
    with what the body wrote, is moved onto [path]. *)
Lemma rewrite_run {A} (path : string) (body : string -> BodyRun A) (w : World) :
  let files := files_at_start path w in
  let dest := mkstemp files in
  let run := body (text_read w path) in
  let before := trace w ++ events_at_start path w ++ (EvLog <$> logged run) in
  rewrite path body w
  = match outcome run with
    | Ok a =>
        (Ok a, mkWorld (<[path := newline_write (written run)]> files) (streams w)
                 (environ w) (before ++ [EvMove dest path]))
    | Raise e =>
        (Raise e, mkWorld files (streams w) (environ w)
                    (before ++ [EvUnlink dest]))
    end.
Proof.
  cbv zeta. unfold events_at_start, files_at_start, text_read.
  unfold rewrite, try_except_else, run_body. unfold_io.
  destruct (fs w !! path) as [text|] eqn:Hpath.
  - rewrite bool_decide_true by eauto. simpl_world.
    rewrite lookup_insert_ne by (apply mkstemp_ne; eauto). rewrite Hpath.
    unfold default. cbn [from_option id].
    destruct (outcome (body (universal_newlines text))) as [a|e];
      unfold emit, with_fs; simpl_world.
    + rewrite lookup_insert_eq, temp_file_moved. simpl_world.
      f_equal. f_equal. by rewrite <- !app_assoc.
    + rewrite lookup_insert_eq. rewrite bool_decide_true by eauto. simpl_world.
      rewrite lookup_insert_eq. simpl_world. rewrite temp_file_removed.
      f_equal. f_equal. by rewrite <- !app_assoc.
  - rewrite bool_decide_false by (by intros [? ?]). simpl_world.
    rewrite newline_write_empty.
    rewrite lookup_insert_ne by (apply mkstemp_ne; rewrite lookup_insert_eq; eauto).
    rewrite lookup_insert_eq. unfold default. cbn [from_option id].
    destruct (outcome (body (universal_newlines ""))) as [a|e];
      unfold emit, with_fs; simpl_world.
    + rewrite lookup_insert_eq, temp_file_moved. simpl_world.
      f_equal. f_equal. by rewrite <- !app_assoc.
    + rewrite lookup_insert_eq. rewrite bool_decide_true by eauto. simpl_world.
      rewrite lookup_insert_eq. simpl_world. rewrite temp_file_removed.
      f_equal. f_equal. by rewrite <- !app_assoc.
Qed.

(** C2, as the code has it. When [rewrite] runs on a path that is a file and
    its body, given the text read from the file, raises, the exception goes
    on to the caller, every file has the text it had when the transaction
    began, and the temporary file of the transaction is gone after having
    been unlinked. *)
Theorem rewrite_failure_atomic {A} (path text : string)
    (body : string -> BodyRun A) (w : World) (e : Exn)
    (Hfile : fs w !! path = Some text)
    (Hraise : outcome (body (universal_newlines text)) = Raise e) :
  exists w' : World,
    rewrite path body w = (Raise e, w')
    /\ fs w' = fs w
    /\ fs w' !! path = Some text
    /\ fs w' !! mkstemp (fs w) = None
    /\ trace w'
       = trace w ++ [EvTempFile (mkstemp (fs w)); EvOpen path "r"]
         ++ (EvLog <$> logged (body (universal_newlines text)))
         ++ [EvUnlink (mkstemp (fs w))].
Proof.
  eexists. rewrite rewrite_run. cbv zeta.
  unfold events_at_start, files_at_start, text_read. rewrite Hfile.
  unfold default. cbn [from_option id]. rewrite Hraise.
  split; [done|]. cbn [fs trace].
  split_and!; [done | done | apply mkstemp_fresh |].
  by rewrite <- !app_assoc.
Qed.

(** C9. When [rewrite] runs on a path that does not exist, the first thing
    it does is to create the file, empty; when the body then raises, the
    exception goes on, and the files afterwards are the files from before
    with the empty file added: the creation is not undone. *)
Theorem rewrite_creation_not_rolled_back {A} (path : string)
    (body : string -> BodyRun A) (w : World) (e : Exn)
    (Hmissing : fs w !! path = None)
    (Hraise : outcome (body "") = Raise e) :
  exists (w' : World) (later : list Event),
    rewrite path body w = (Raise e, w')
    /\ trace w' = trace w ++ EvOpen path "w+" :: later
    /\ fs w' = <[path := ""]> (fs w)
    /\ fs w' !! path = Some ""
    /\ fs w' !! mkstemp (<[path := ""]> (fs w)) = None.
Proof.
  do 2 eexists. rewrite rewrite_run. cbv zeta.
  unfold events_at_start, files_at_start, text_read. rewrite Hmissing.
  unfold default. cbn [from_option id universal_newlines]. rewrite Hraise.
  split; [done|]. cbn [fs trace].
  split_and!; [ | done | apply lookup_insert_eq | apply mkstemp_fresh].
  rewrite <- !app_assoc. cbn [app]. done.
Qed.

End RewriteFacts.

(** * The key mutators *)

Lemma append_empty_r (s : string) : s +:+ "" = s.
Proof.
  induction s as [|c s IH]; [done|].
  change (String c (s +:+ "") = String c s). by rewrite IH.
Qed.

Lemma set_key_segment_eq (k line_out : string) (mapping : Binding) :
  key mapping = Some k -> set_key_segment k line_out mapping = line_out.
Proof. intros. unfold set_key_segment. by rewrite decide_True. Qed.

Lemma set_key_segment_ne (k line_out : string) (mapping : Binding) :
  key mapping <> Some k ->
  set_key_segment k line_out mapping = Original.string (original mapping).
Proof. intros. unfold set_key_segment. by rewrite decide_False. Qed.

Lemma unset_key_segment_eq (k : string) (mapping : Binding) :
  key mapping = Some k -> unset_key_segment k mapping = "".
Proof. intros. unfold unset_key_segment. by rewrite decide_True. Qed.

Lemma unset_key_segment_ne (k : string) (mapping : Binding) :
  key mapping <> Some k ->
  unset_key_segment k mapping = Original.string (original mapping).
Proof. intros. unfold unset_key_segment. by rewrite decide_False. Qed.

Lemma append_assoc (s1 s2 s3 : string) : (s1 +:+ s2) +:+ s3 = s1 +:+ (s2 +:+ s3).
Proof.
  induction s1 as [|c s1 IH]; [done|].
  change (String c ((s1 +:+ s2) +:+ s3) = String c (s1 +:+ (s2 +:+ s3))).
  by rewrite IH.
Qed.

Lemma join_app (texts texts' : list string) :
  join (texts ++ texts') = join texts +:+ join texts'.
Proof.
  induction texts as [|text texts IH]; [done|].
  cbn [app join foldr]. fold (join (texts ++ texts')). fold (join texts).
  by rewrite IH, append_assoc.
Qed.

Lemma text_of_app (mappings mappings' : list Binding) :
  text_of (mappings ++ mappings') = text_of mappings +:+ text_of mappings'.
Proof. unfold text_of. by rewrite fmap_app, join_app. Qed.

Lemma set_key_segments_no_key (k line_out : string) (mappings : list Binding) :
  Forall (fun mapping => key mapping <> Some k) mappings ->
  join (set_key_segment k line_out <$> mappings) = text_of mappings
  /\ has_key k mappings = false.
Proof.
  unfold text_of, has_key.
  induction 1 as [|mapping mappings Hne _ [IHtext IHkey]]; [done|].
  cbn [fmap list_fmap join foldr existsb].
  rewrite set_key_segment_ne, bool_decide_false by done.
  split; [|done]. f_equal. apply IHtext.
Qed.

Lemma unset_key_segments_filter (k : string) (mappings : list Binding) :
  join (unset_key_segment k <$> mappings)
  = text_of (filter (fun mapping => key mapping <> Some k) mappings).
Proof.
  unfold text_of. induction mappings as [|mapping mappings IH]; [done|].
  cbn [fmap list_fmap join foldr]. fold (join (unset_key_segment k <$> mappings)).
  destruct (decide (key mapping = Some k)) as [Heq|Hne].
  - rewrite unset_key_segment_eq by done.
    rewrite filter_cons_False by (by intros Hn). exact IH.
  - rewrite unset_key_segment_ne by done.
    rewrite filter_cons_True by done. cbn [fmap list_fmap join foldr].
    f_equal. exact IH.
Qed.

Lemma has_key_Exists (k : string) (mappings : list Binding) :
  Exists (fun mapping => key mapping = Some k) mappings -> has_key k mappings = true.
Proof.
  unfold has_key. induction 1 as [mapping mappings Heq|mapping mappings _ IH];
    cbn [existsb].
  - by rewrite bool_decide_true.
  - by rewrite IH, orb_true_r.
Qed.

Lemma bind_Raise {A B} (m : M A) (k : A -> M B) (w w' : World) (e : Exn) :
  m w = (Raise e, w') -> bind m k w = (Raise e, w').
Proof. intros Hm. unfold bind. by rewrite Hm. Qed.

(** A text without carriage returns is read as it is. *)
Lemma universal_newlines_id (s : string) :
  has_char char_CR s = false -> universal_newlines s = s.
Proof.
  induction s as [|c s IH]; [done|]. cbn [has_char universal_newlines].
  intros [Hc Hs]%orb_false_iff. apply bool_decide_eq_false in Hc.
  rewrite decide_False by done. by rewrite IH.
Qed.

(** Where lines end with a line feed, a text is stored as it is. *)
Lemma newline_write_id `{Platform} (s : string) :
  os_linesep = LF -> newline_write s = s.
Proof.
  intros Hsep. induction s as [|c s IH]; [done|]. cbn [newline_write].
  rewrite IH, Hsep. destruct (decide (c = char_LF)) as [->|Hc]; done.
Qed.

Lemma text_of_cons (mapping : Binding) (mappings : list Binding) :
  text_of (mapping :: mappings)
  = Original.string (original mapping) +:+ text_of mappings.
Proof. done. Qed.

(** The segments written for a binding and for those around it. *)
Lemma join_fmap_split (f : Binding -> string) (before after : list Binding)
    (mapping : Binding) :
  join (f <$> before ++ mapping :: after)
  = join (f <$> before) +:+ f mapping +:+ join (f <$> after).
Proof. by rewrite fmap_app, join_app, fmap_cons. Qed.

Section KeyMutatorFacts.
Context `{BindingStream} `{AtomTokenizer} `{Platform} `{TempNames} `{StrMethods}.

(** The loop of [set_key] writes one segment per binding. *)
Lemma set_key_loop_segments (key_to_set line_out : string) (replaced : bool)
    (mappings : list Binding) :
  set_key_loop key_to_set line_out replaced mappings
  = (join (set_key_segment key_to_set line_out <$> mappings),
     replaced || has_key key_to_set mappings).
Proof.
  revert replaced. induction mappings as [|mapping mappings IH]; intros replaced.
  - cbn. by rewrite orb_false_r.
  - cbn [set_key_loop]. rewrite !IH. unfold has_key.
    cbn [fmap list_fmap join foldr existsb].
    destruct (decide (key mapping = Some key_to_set)) as [Heq|Hne].
    + rewrite set_key_segment_eq, bool_decide_true by done. by rewrite orb_true_r.
    + rewrite set_key_segment_ne, bool_decide_false by done. done.
Qed.

(** The loop of [unset_key] writes one segment per binding. *)
Lemma unset_key_loop_segments (key_to_unset : string) (removed : bool)
    (mappings : list Binding) :
  unset_key_loop key_to_unset removed mappings
  = (join (unset_key_segment key_to_unset <$> mappings),
     removed || has_key key_to_unset mappings).
Proof.
  revert removed. induction mappings as [|mapping mappings IH]; intros removed.
  - cbn. by rewrite orb_false_r.
  - cbn [unset_key_loop]. rewrite !IH. unfold has_key.
    cbn [fmap list_fmap join foldr existsb].
    destruct (decide (key mapping = Some key_to_unset)) as [Heq|Hne].
    + rewrite unset_key_segment_eq, bool_decide_true by done. by rewrite orb_true_r.
    + rewrite unset_key_segment_ne, bool_decide_false by done. done.
Qed.

(** Without a binding for the key, [unset_key] writes the text of the
    bindings as it is. *)
Lemma unset_key_segments_no_key (key_to_unset : string) (mappings : list Binding) :
  Forall (fun mapping => key mapping <> Some key_to_unset) mappings ->
  join (unset_key_segment key_to_unset <$> mappings) = text_of mappings
  /\ has_key key_to_unset mappings = false.
Proof.
  unfold text_of, has_key.
  induction 1 as [|mapping mappings Hne _ [IHtext IHkey]]; [done|].
  cbn [fmap list_fmap join foldr existsb].
  rewrite unset_key_segment_ne, bool_decide_false by done.
  split; [|done]. f_equal. apply IHtext.
Qed.

Lemma set_key_body_run (key_to_set line_out source : string) :
  set_key_body key_to_set line_out source
  = mkBodyRun (with_warn_for_invalid_lines (parse_stream source)).1
      (join (set_key_segment key_to_set line_out <$> parse_stream source)
       +:+ (if has_key key_to_set (parse_stream source) then "" else line_out))
      (Ok tt).
Proof.
  unfold set_key_body, with_warn_for_invalid_lines.
  rewrite set_key_loop_segments. cbn [orb fst].
  destruct (has_key key_to_set (parse_stream source)); [|done].
  by rewrite append_empty_r.
Qed.

Lemma unset_key_body_run (key_to_unset source : string) :
  unset_key_body key_to_unset source
  = mkBodyRun (with_warn_for_invalid_lines (parse_stream source)).1
      (join (unset_key_segment key_to_unset <$> parse_stream source))
      (Ok (has_key key_to_unset (parse_stream source))).
Proof.
  unfold unset_key_body, with_warn_for_invalid_lines.
  by rewrite unset_key_loop_segments.
Qed.

(** [set_key] with a [quote_mode] it knows: the file is written anew, one
    segment per binding of the text read, and the line of the key after
    them when no binding has the key. *)
Lemma set_key_run (path k v quote_mode : string) (export : bool) (w : World) :
  quote_mode ∈ ["always"; "auto"; "never"] ->
  let mappings := parse_stream (text_read w path) in
  let line_out := set_key_line k v quote_mode export in
  exists w' : World,
    set_key path k v quote_mode export w = (Ok (Some true, k, v), w')
    /\ fs w' !! path
       = Some (newline_write
                 (join (set_key_segment k line_out <$> mappings)
                  +:+ (if has_key k mappings then "" else line_out))).
Proof.
  intros Hmode. cbv zeta. unfold set_key. rewrite bool_decide_true by done. cbn [negb].
  fold (set_key_line k v quote_mode export).
  eexists. split.
  - erewrite bind_Ok; [reflexivity|].
    rewrite rewrite_run. cbv zeta. rewrite set_key_body_run. cbn [outcome]. reflexivity.
  - cbn [fs written]. apply lookup_insert_eq.
Qed.

(** [unset_key] on a file that is there, whole. *)
Lemma unset_key_run (path k quote_mode : string) (w : World) :
  is_Some (fs w !! path) ->
  let mappings := parse_stream (text_read w path) in
  let committed :=
    mkWorld
      (<[path := newline_write (join (unset_key_segment k <$> mappings))]> (fs w))
      (streams w) (environ w)
      (trace w ++ [EvTempFile (mkstemp (fs w)); EvOpen path "r"]
       ++ (EvLog <$> (with_warn_for_invalid_lines mappings).1)
       ++ [EvMove (mkstemp (fs w)) path]) in
  unset_key path k quote_mode w
  = if has_key k mappings
    then (Ok (Some true, k), committed)
    else (Ok (None, k), emit [EvLog (KeyNotRemoved k path)] committed).
Proof.
  intros [text Hfile]. cbv zeta. unfold unset_key, os_path_exists.
  erewrite bind_Ok by (unfold gets; reflexivity).
  rewrite bool_decide_true by eauto. cbn [negb].
  erewrite bind_Ok; cycle 1.
  { rewrite rewrite_run. cbv zeta. rewrite unset_key_body_run. cbn [outcome]. reflexivity. }
  unfold events_at_start, files_at_start. rewrite Hfile. cbn [written logged app].
  rewrite <- !app_assoc. cbn [app].
  destruct (has_key k (parse_stream (text_read w path))); cbn [negb]; [done|].
  unfold log, bind, modify, ret. done.
Qed.

(** C6, as the code has it.  [set_key] and [unset_key] write the file anew
    from the text that the text-mode handle reads from it, one segment per
    binding of that text: for a binding whose key is not the targeted one,
    comment and malformed lines included, its original text; for the
    targeted key the new line ([set_key]) or nothing ([unset_key]); and
    [set_key] ends with its line when no binding has the key.  Where the
    original texts of the bindings make up the text read, a line that is
    not targeted stands in the text written as it stands in the text read:
    after what is written for the bindings before it, with the same
    characters.  The text read is the file with its line endings read as
    line feeds, and the text written is stored with the line ending of the
    platform; for a file without carriage returns, where lines end with a
    line feed, the text read is the file as it is and the text written is
    the new file as it is. *)
Theorem line_preservation (path k v quote_mode : string) (export : bool) (w : World)
    (Hmode : quote_mode ∈ ["always"; "auto"; "never"])
    (Hcover : text_of (parse_stream (text_read w path)) = text_read w path) :
  let text := default "" (fs w !! path) in
  let mappings := parse_stream (text_read w path) in
  let line_out := set_key_line k v quote_mode export in
  let set_text :=
    join (set_key_segment k line_out <$> mappings)
    +:+ (if has_key k mappings then "" else line_out) in
  let unset_text := join (unset_key_segment k <$> mappings) in
  (exists w_set : World,
     set_key path k v quote_mode export w = (Ok (Some true, k, v), w_set)
     /\ fs w_set !! path = Some (newline_write set_text)
     /\ (has_char char_CR text = false -> os_linesep = LF ->
         fs w_set !! path = Some set_text))
  /\ (is_Some (fs w !! path) ->
      exists w_unset : World,
        unset_key path k quote_mode w
        = (Ok (if has_key k mappings then Some true else None, k), w_unset)
        /\ fs w_unset !! path = Some (newline_write unset_text)
        /\ (has_char char_CR text = false -> os_linesep = LF ->
            fs w_unset !! path = Some unset_text))
  /\ (forall (before after : list Binding) (mapping : Binding),
        mappings = before ++ mapping :: after ->
        key mapping <> Some k ->
        text_read w path
        = text_of before +:+ Original.string (original mapping) +:+ text_of after
        /\ set_text
           = join (set_key_segment k line_out <$> before)
             +:+ Original.string (original mapping)
             +:+ join (set_key_segment k line_out <$> after)
             +:+ (if has_key k mappings then "" else line_out)
        /\ unset_text
           = join (unset_key_segment k <$> before)
             +:+ Original.string (original mapping)
             +:+ join (unset_key_segment k <$> after))
  /\ (has_char char_CR text = false -> text_read w path = text).
Proof.
  cbv zeta. split_and!.
  - destruct (set_key_run path k v quote_mode export w Hmode) as (w_set & Hset & Hnew).
    exists w_set. split_and!; [done | done |].
    intros Hcr Hsep. by rewrite Hnew, newline_write_id.
  - intros Hfile.
    pose proof (unset_key_run path k quote_mode w Hfile) as Hunset. cbv zeta in Hunset.
    assert (Hnew :
      fs (unset_key path k quote_mode w).2 !! path
      = Some (newline_write
                (join (unset_key_segment k <$> parse_stream (text_read w path))))).
    { rewrite Hunset. destruct (has_key k (parse_stream (text_read w path)));
        cbn [snd fs emit]; apply lookup_insert_eq. }
    exists (unset_key path k quote_mode w).2. split_and!; [| done |].
    + rewrite Hunset. by destruct (has_key k (parse_stream (text_read w path))).
    + intros Hcr Hsep. by rewrite Hnew, newline_write_id.
  - intros before after mapping Hsplit Hne. split_and!.
    + by rewrite <- Hcover, Hsplit, text_of_app, text_of_cons.
    + rewrite Hsplit at 1. rewrite join_fmap_split, set_key_segment_ne by done.
      by rewrite !append_assoc.
    + by rewrite Hsplit, join_fmap_split, unset_key_segment_ne.
  - intros Hcr. unfold text_read. by apply universal_newlines_id.
Qed.

(** C7, as the code has it.  [unset_key] does not raise when the file or
    the key is missing.  When the path does not exist, it logs a warning
    and returns an absent indicator, and does nothing else to the world.
    When the file exists and none of its bindings has the key, the
    temporary file is still moved onto the path, a warning is logged, and
    the indicator is absent; the file then holds the text that was read
    from it, stored with the line ending of the platform, and every other
    file is as before.  For a file without carriage returns, where lines
    end with a line feed, every file has the text it had. *)
Theorem unset_key_missing (path k quote_mode : string) (w : World) :
  (fs w !! path = None ->
   unset_key path k quote_mode w = (Ok (None, k), emit [EvLog (CantDelete path)] w))
  /\ (forall text : string,
        fs w !! path = Some text ->
        Forall (fun mapping => key mapping <> Some k)
          (parse_stream (universal_newlines text)) ->
        text_of (parse_stream (universal_newlines text)) = universal_newlines text ->
        exists w' : World,
          unset_key path k quote_mode w = (Ok (None, k), w')
          /\ fs w' = <[path := newline_write (universal_newlines text)]> (fs w)
          /\ (has_char char_CR text = false -> os_linesep = LF -> fs w' = fs w)
          /\ trace w'
             = trace w ++ [EvTempFile (mkstemp (fs w)); EvOpen path "r"]
               ++ (EvLog <$> (with_warn_for_invalid_lines
                                (parse_stream (universal_newlines text))).1)
               ++ [EvMove (mkstemp (fs w)) path; EvLog (KeyNotRemoved k path)]).
Proof.
  split.
  - intros Hmissing. unfold unset_key, os_path_exists.
    erewrite bind_Ok by (unfold gets; reflexivity).
    rewrite bool_decide_false by (rewrite Hmissing; by intros [? ?]).
    done.
  - intros text Hfile Hkeys Htext.
    pose proof (unset_key_run path k quote_mode w (mk_is_Some _ _ Hfile)) as Hrun.
    cbv zeta in Hrun.
    assert (text_read w path = universal_newlines text) as Hread
      by (unfold text_read; by rewrite Hfile).
    rewrite Hread in Hrun.
    destruct (unset_key_segments_no_key k _ Hkeys) as [Hsegments Hnone].
    rewrite Hnone, Hsegments, Htext in Hrun.
    eexists. split; [exact Hrun|]. cbn [fs emit trace]. split_and!.
    + done.
    + intros Hcr Hsep. rewrite universal_newlines_id, newline_write_id by done.
      by apply insert_id.
    + rewrite <- !app_assoc. cbn [app]. done.
Qed.

(** C8. A [quote_mode] that [set_key] does not know, and a chain of
    sources that is empty or has an absent entry, raise [ValueError] with
    the world as it was: nothing was opened, read, written or logged. *)
Theorem configuration_errors_fail_fast (w : World) :
  (forall (path k v quote_mode : string) (export : bool),
     quote_mode ∉ ["always"; "auto"; "never"] ->
     set_key path k v quote_mode export w
     = (Raise (ValueError ("Unknown quote_mode: " +:+ quote_mode)), w))
  /\ (forall (sources : list (option Argument)) (verbose interpolate : bool)
         (encoding : option string) (base_env : BaseEnv),
        sources = [] \/ None ∈ sources ->
        exists msg : string,
          chained_dotenv_values sources verbose interpolate encoding base_env w
          = (Raise (ValueError msg), w)).
Proof.
  split.
  - intros path k v quote_mode export Hmode. unfold set_key.
    by rewrite bool_decide_false.
  - intros sources verbose interpolate encoding base_env Hsources.
    unfold chained_dotenv_values.
    assert (negb (match sources with [] => false | _ :: _ => true end)
            || existsb (fun arg => match arg with None => true | Some _ => false end)
                 sources = true) as ->; [|by eexists].
    destruct Hsources as [->|Hnone]; [done|].
    apply orb_true_iff. right. apply existsb_exists.
    exists None. split; [by apply list_elem_of_In | done].
Qed.

End KeyMutatorFacts.

(** * The statements on the sample inputs

    Here the collaborators are the tokenizers after the spec and the
    numbered temporary names. *)

(** Closing a decidable goal by evaluation. *)
Ltac decide_it := apply (bool_decide_unpack _); vm_compute; exact I.

Lemma self_reference_precedence_witness :
  PyDict.get
    (resolve_variables [("A", Some "1"); ("B", Some "${A}")] true [("A", Some "9")])
    "B" = Some (Some "1")
  /\ PyDict.get
       (resolve_variables [("A", Some "1"); ("B", Some "${A}")] false [("A", Some "9")])
       "B" = Some (Some "9").
Proof.
  destruct (@self_reference_precedence posix_tokenizer eq_refl eq_refl)
    as [Hoverride Hkeep].
  split; [apply Hoverride | apply Hkeep; [apply NoDup_singleton | reflexivity]].
Defined.

Lemma merge_override_precedence_witness :
  let self := DotEnv.__init__ None None false None true false
                (Mapping [("A", Some "1")]) in
  DotEnv.update_dict self [("A", Some "2")] empty_world
  = (Ok (DotEnv.set__dict self [("A", Some "2")], [("A", Some "2")]), empty_world).
Proof.
  exact (@merge_override_precedence posix_tokenizer eq_refl
           None None false None false empty_world).
Defined.

(** With [override] false the merged mapping does not keep the ["1"] of
    the base environment for [A]. *)
Lemma merge_override_false_counterexample :
  ~ (exists (self' : DotEnv.t) (d : Env) (w' : World),
       DotEnv.update_dict
         (DotEnv.__init__ None None false None true false (Mapping [("A", Some "1")]))
         [("A", Some "2")] empty_world
       = (Ok (self', d), w')
       /\ PyDict.get d "A" = Some (Some "1")).
Proof.
  intros (self' & d & w' & Hrun & Hget).
  vm_compute in Hrun. injection Hrun as <- <- <-.
  vm_compute in Hget. discriminate.
Qed.

Lemma chain_loading_witness :
  (chained_dotenv_values [Some (ArgPath "a.env"); Some (ArgPath "b.env")]
     false true None OsEnviron sample_world).1
  = Ok [("A", Some "2"); ("B", Some "2")]
  /\ (chained_dotenv_values [Some (ArgPath "a.env"); Some (ArgPath "c.env")]
        false true None OsEnviron sample_world).1
     = Ok [("A", Some "1"); ("B", Some "1")].
Proof.
  apply (@chain_loading line_binding_stream posix_tokenizer
           "a.env" "b.env" "c.env"
           (lines ["A=1"]) (lines ["A=2"; "B=${A}"]) (lines ["B=${A}"]));
    vm_compute; reflexivity.
Defined.

Lemma order_preservation_witness :
  PyDict.keys (resolve_variables [("A", Some "1"); ("B", Some "${A}")] true [])
  = ["A"; "B"]
  /\ PyDict.keys
       (resolve_variables ([("A", Some "1"); ("B", Some "${A}")] ++ [("A", Some "3")])
          true [])
     = PyDict.keys (resolve_variables [("A", Some "1"); ("B", Some "${A}")] true []).
Proof.
  destruct (@order_preservation posix_tokenizer
              [("A", Some "1"); ("B", Some "${A}")] true [])
    as (Hkeys & Hagain & _).
  split; [exact Hkeys|].
  apply (Hagain "A" (Some "3")). rewrite Hkeys. vm_compute. left.
Defined.



Lemma rewrite_failure_atomic_witness :
  exists w' : World,
    rewrite ".env" failing_body sample_world
    = (Raise (OtherException "disk full"), w')
    /\ fs w' = fs sample_world.
Proof.
  destruct (@rewrite_failure_atomic posix fresh_temp_names unit ".env" sample_env
              failing_body sample_world (OtherException "disk full")
              eq_refl eq_refl)
    as (w' & Hrun & Hfs & _).
  exists w'. split; [exact Hrun | exact Hfs].
Defined.

(** On a path that does not exist, the failed transaction leaves a file
    where there was none. *)
Lemma rewrite_failure_counterexample :
  (rewrite "new.env" failing_body empty_world).1 = Raise (OtherException "disk full")
  /\ fs (rewrite "new.env" failing_body empty_world).2 !! "new.env"
     <> fs empty_world !! "new.env".
Proof. split; [by vm_compute | vm_compute; discriminate]. Qed.

Lemma rewrite_creation_not_rolled_back_witness :
  exists w' : World,
    rewrite "new.env" failing_body empty_world
    = (Raise (OtherException "disk full"), w')
    /\ fs w' !! "new.env" = Some "".
Proof.
  destruct (@rewrite_creation_not_rolled_back posix fresh_temp_names unit "new.env"
              failing_body empty_world (OtherException "disk full")
              eq_refl eq_refl)
    as (w' & later & Hrun & _ & _ & Hfile & _).
  exists w'. split; [exact Hrun | exact Hfile].
Defined.

Lemma line_preservation_witness :
  exists w_set w_unset : World,
    set_key ".env" "A" "x y" "always" false sample_world
    = (Ok (Some true, "A", "x y"), w_set)
    /\ unset_key ".env" "A" "always" sample_world = (Ok (Some true, "A"), w_unset)
    /\ fs w_set !! ".env"
       = Some (lines ["# settings"; "A='x y'"; "not a binding"; "B=${A}"; "C"])
    /\ fs w_unset !! ".env"
       = Some (lines ["# settings"; "not a binding"; "B=${A}"; "C"]).
Proof.
  destruct (@line_preservation line_binding_stream posix fresh_temp_names ascii_str
              ".env" "A" "x y" "always" false sample_world)
    as ((w_set & Hset & _ & Hnew_set) & Hunset & _).
  - left.
  - vm_compute. reflexivity.
  - destruct Hunset as (w_unset & Hunset & _ & Hnew_unset); [decide_it|].
    exists w_set, w_unset.
    split_and!; [exact Hset | exact Hunset | |].
    + rewrite Hnew_set by reflexivity. vm_compute. reflexivity.
    + rewrite Hnew_unset by reflexivity. vm_compute. reflexivity.
Defined.

(** In a file whose lines end with a carriage return and a line feed, the
    comment line is not targeted, and it is not in the rewritten file as it
    was in the file: its line ending has become a line feed. *)
Lemma line_preservation_counterexample :
  exists w' : World,
    set_key "crlf.env" "A" "2" "always" false crlf_world = (Ok (Some true, "A", "2"), w')
    /\ fs crlf_world !! "crlf.env" = Some ("# settings" +:+ CRLF +:+ "A=1" +:+ CRLF)
    /\ fs w' !! "crlf.env" = Some ("# settings" +:+ LF +:+ "A='2'" +:+ LF).
Proof. eexists. split_and!; vm_compute; reflexivity. Qed.

Lemma unset_key_missing_witness :
  unset_key "missing.env" "Z" "always" sample_world
  = (Ok (None, "Z"), emit [EvLog (CantDelete "missing.env")] sample_world)
  /\ exists w' : World,
       unset_key ".env" "Z" "always" sample_world = (Ok (None, "Z"), w')
       /\ fs w' = fs sample_world.
Proof.
  destruct (@unset_key_missing line_binding_stream posix fresh_temp_names
              "missing.env" "Z" "always" sample_world) as [Hmissing _].
  destruct (@unset_key_missing line_binding_stream posix fresh_temp_names
              ".env" "Z" "always" sample_world) as [_ Hkey].
  split; [apply Hmissing; reflexivity|].
  destruct (Hkey sample_env) as (w' & Hrun & _ & Hfs & _).
  - reflexivity.
  - apply (bool_decide_unpack _). vm_compute. exact I.
  - vm_compute. reflexivity.
  - exists w'. split; [exact Hrun | apply Hfs; reflexivity].
Defined.

(** In a file whose lines end with a carriage return and a line feed,
    removing a key that is not there leaves the file with other content:
    its lines end with a line feed. *)
Lemma unset_key_missing_counterexample :
  exists w' : World,
    unset_key "crlf.env" "Z" "always" crlf_world = (Ok (None, "Z"), w')
    /\ fs w' !! "crlf.env" = Some ("# settings" +:+ LF +:+ "A=1" +:+ LF)
    /\ fs w' !! "crlf.env" <> fs crlf_world !! "crlf.env".
Proof.
  eexists. split_and!; [vm_compute; reflexivity | vm_compute; reflexivity |].
  vm_compute. discriminate.
Qed.

Lemma configuration_errors_fail_fast_witness :
  set_key ".env" "A" "1" "sometimes" false sample_world
  = (Raise (ValueError "Unknown quote_mode: sometimes"), sample_world)
  /\ (exists msg : string,
        chained_dotenv_values [] false true None OsEnviron sample_world
        = (Raise (ValueError msg), sample_world))
  /\ (exists msg : string,
        chained_dotenv_values [Some (ArgPath "a.env"); None] false true None
          OsEnviron sample_world
        = (Raise (ValueError msg), sample_world)).
Proof.
  destruct (@configuration_errors_fail_fast line_binding_stream posix_tokenizer
              posix fresh_temp_names ascii_str sample_world) as [Hmode Hsources].
  split_and!.
  - apply Hmode. apply (bool_decide_unpack _). vm_compute. exact I.
  - apply Hsources. by left.
  - apply Hsources. right. right. left.
Defined.

(** * More on the merge engine *)

Section MergeEngineMore.
Context `{AtomTokenizer}.

(** A key that is assigned takes the last value assigned to it, whatever
    the dictionary held before. *)
Lemma get_update_in {V} (d d' : PyDict.t V) (items : list (string * V)) (k : string) :
  k ∈ items.*1 ->
  PyDict.get (PyDict.update d items) k = PyDict.get (PyDict.update d' items) k.
Proof.
  revert d d'. induction items as [|[k0 v0] items IH]; intros d d' Hin.
  - by apply elem_of_nil in Hin.
  - cbn [PyDict.update]. destruct (decide (k ∈ items.*1)) as [Hrest|Hrest].
    + by apply IH.
    + rewrite !get_update_notin by done.
      apply elem_of_cons in Hin as [->|Hin]; [|done].
      cbn [fst]. by rewrite !get_set_eq.
Qed.

Lemma get_resolve_variables_from_notin (new_values : Env)
    (values : list (string * option string)) (override : bool) (base_env : Env)
    (k : string) :
  k ∉ values.*1 ->
  PyDict.get (resolve_variables_from new_values values override base_env) k
  = PyDict.get new_values k.
Proof.
  revert new_values. induction values as [|[k0 v0] values IH]; intros new_values; [done|].
  intros [Hne Hnotin]%not_elem_of_cons. cbn [resolve_variables_from].
  rewrite IH by done. by apply get_set_ne.
Qed.

(** X1. Resolution is one pass: pairs that come later do not change the
    resolved value of a key that they do not define again. *)
Theorem resolve_variables_single_pass
    (values more : list (string * option string)) (override : bool)
    (base_env : Env) (k : string)
    (Hlater : k ∉ more.*1) :
  PyDict.get (resolve_variables (values ++ more) override base_env) k
  = PyDict.get (resolve_variables values override base_env) k.
Proof.
  unfold resolve_variables. rewrite resolve_variables_from_app.
  by apply get_resolve_variables_from_notin.
Qed.

Lemma resolve_ext (a : Atom) (env env' : Env) :
  (forall name : string, PyDict.get env name = PyDict.get env' name) ->
  resolve a env = resolve a env'.
Proof. intros Hext. destruct a as [text|name fallback]; [done|]. cbn. by rewrite Hext. Qed.

(** Where the values resolved so far and the base environment share no
    key, it does not matter which of the two is laid over the other. *)
Lemma disjoint_overlay (base_env new_values : Env) (name : string) :
  (forall k : string, k ∈ PyDict.keys new_values -> k ∉ PyDict.keys base_env) ->
  PyDict.get (PyDict.update (PyDict.update PyDict.empty base_env) new_values) name
  = PyDict.get (PyDict.update (PyDict.update PyDict.empty new_values) base_env) name.
Proof.
  unfold PyDict.keys. intros Hdisjoint.
  destruct (decide (name ∈ new_values.*1)) as [Hnew|Hnew].
  - rewrite (get_update_notin _ base_env) by auto. by apply get_update_in.
  - rewrite (get_update_notin _ new_values) by done.
    destruct (decide (name ∈ base_env.*1)) as [Hbase|Hbase].
    + by apply get_update_in.
    + by rewrite !get_update_notin.
Qed.

Lemma override_irrelevant_from (new_values : Env)
    (values : list (string * option string)) (base_env : Env) :
  (forall k : string,
     k ∈ PyDict.keys new_values \/ k ∈ values.*1 -> k ∉ PyDict.keys base_env) ->
  resolve_variables_from new_values values true base_env
  = resolve_variables_from new_values values false base_env.
Proof.
  revert new_values. induction values as [|[k0 v0] values IH]; intros new_values Hdisjoint;
    [done|].
  cbn [resolve_variables_from].
  assert (resolve_value true base_env new_values v0
          = resolve_value false base_env new_values v0) as ->.
  { destruct v0 as [v0|]; [|done]. unfold resolve_value. do 2 f_equal.
    apply map_ext. intros atom. apply resolve_ext. intros name.
    apply disjoint_overlay. intros k Hk. apply Hdisjoint. by left. }
  apply IH. intros k [Hk|Hk]; apply Hdisjoint.
  - rewrite keys_set in Hk. destruct (decide (k0 ∈ PyDict.keys new_values)); [by left|].
    apply elem_of_app in Hk as [Hk|Hk%list_elem_of_singleton]; [by left|].
    right. subst. left.
  - right. by right.
Qed.

(** X2. [override] only matters for keys that the file shares with the
    base environment: when no key of the pairs is a key of the base
    environment, both settings resolve to the same mapping. *)
Theorem override_irrelevant_when_disjoint
    (values : list (string * option string)) (base_env : Env)
    (Hdisjoint : forall k : string, k ∈ values.*1 -> k ∉ PyDict.keys base_env) :
  resolve_variables values true base_env = resolve_variables values false base_env.
Proof.
  unfold resolve_variables. apply override_irrelevant_from.
  intros k [Hk|Hk]; [by apply elem_of_nil in Hk | by apply Hdisjoint].
Qed.

Lemma resolve_literals (texts : list string) (env : Env) :
  map (fun atom => resolve atom env) (Literal <$> texts) = texts.
Proof. induction texts as [|text texts IH]; [done|]. cbn. by rewrite IH. Qed.

Lemma resolve_value_reference_free (override : bool) (base_env new_values : Env)
    (value : string) :
  reference_free value ->
  resolve_value override base_env new_values (Some value) = Some value.
Proof.
  intros (texts & Hatoms & Htexts). unfold resolve_value.
  by rewrite Hatoms, resolve_literals, Htexts.
Qed.

Lemma resolve_variables_from_reference_free (new_values : Env)
    (values : list (string * option string)) (override : bool) (base_env : Env) :
  (forall (k value : string), (k, Some value) ∈ values -> reference_free value) ->
  resolve_variables_from new_values values override base_env
  = PyDict.update new_values values.
Proof.
  revert new_values. induction values as [|[k0 v0] values IH]; intros new_values Hfree;
    [done|].
  cbn [resolve_variables_from PyDict.update].
  assert (resolve_value override base_env new_values v0 = v0) as ->.
  { destruct v0 as [v0|]; [|done]. apply resolve_value_reference_free.
    apply (Hfree k0). left. }
  apply IH. intros k value Hin. apply (Hfree k). by right.
Qed.

(** X3. Interpolation leaves a file without references as it is: when the
    atoms of every value are literals that make up the value, the resolved
    mapping is the mapping of the raw pairs, whatever [override] and the
    base environment. *)
Theorem resolve_variables_reference_free
    (values : list (string * option string)) (override : bool) (base_env : Env)
    (Hfree : forall (k value : string), (k, Some value) ∈ values -> reference_free value) :
  resolve_variables values override base_env = PyDict.update PyDict.empty values.
Proof. by apply resolve_variables_from_reference_free. Qed.

Lemma presence_get_set (d d' : Env) (k k' : string) (v v' : option string) :
  presence v = presence v' ->
  fmap presence (PyDict.get d k') = fmap presence (PyDict.get d' k') ->
  fmap presence (PyDict.get (PyDict.set d k v) k')
  = fmap presence (PyDict.get (PyDict.set d' k v') k').
Proof.
  intros Hv Hd. rewrite !get_set. destruct (decide (k = k')); [|done].
  cbn. by rewrite Hv.
Qed.

Lemma presence_resolve_variables_from (new_values raw : Env)
    (values : list (string * option string)) (override : bool) (base_env : Env)
    (k : string) :
  fmap presence (PyDict.get new_values k) = fmap presence (PyDict.get raw k) ->
  fmap presence (PyDict.get (resolve_variables_from new_values values override base_env) k)
  = fmap presence (PyDict.get (PyDict.update raw values) k).
Proof.
  revert new_values raw. induction values as [|[k0 v0] values IH];
    intros new_values raw Hsame; [done|].
  cbn [resolve_variables_from PyDict.update]. apply IH.
  apply presence_get_set; [|done]. by destruct v0.
Qed.

(** X4. Resolution defines the keys of the pairs and no others, and keeps
    absent what is absent: a key is bound to an absent value in the
    resolved mapping exactly when its last raw value is absent, and to a
    string exactly when its last raw value is a string. *)
Theorem resolve_variables_keeps_absent
    (values : list (string * option string)) (override : bool) (base_env : Env)
    (k : string) :
  fmap presence (PyDict.get (resolve_variables values override base_env) k)
  = fmap presence (PyDict.get (PyDict.update PyDict.empty values) k).
Proof. by apply presence_resolve_variables_from. Qed.

End MergeEngineMore.

(** * More on loading *)

Lemma get_Some_elem {V} (d : PyDict.t V) (k : string) (v : V) :
  PyDict.get d k = Some v -> (k, v) ∈ d.
Proof.
  induction d as [|[k0 v0] d IH]; cbn [PyDict.get]; [done|].
  destruct (decide (k0 = k)) as [->|Hne].
  - intros [= ->]. left.
  - intros Hget. right. by apply IH.
Qed.

Section LoadingMore.
Context `{BindingStream} `{AtomTokenizer}.

(** [dict] never raises, for any object. *)
Lemma dict_total (self : DotEnv.t) (w : World) :
  exists (self' : DotEnv.t) (d : Env) (w' : World),
    DotEnv.dict self w = (Ok (self', d), w')
    /\ DotEnv._dict self' = Some d
    /\ fs w' = fs w /\ environ w' = environ w.
Proof.
  assert (Hparsed : exists (self' : DotEnv.t) (d : Env) (w' : World),
    (bind (DotEnv.parse self) (fun raw_values => DotEnv.update_dict self raw_values)) w
      = (Ok (self', d), w')
    /\ DotEnv._dict self' = Some d /\ fs w' = fs w /\ environ w' = environ w).
  { destruct (parse_run self w) as (raw_values & w1 & Hrun & Hfs & Henv).
    erewrite bind_Ok by done. rewrite update_dict_run. cbv zeta. by eauto 10. }
  unfold DotEnv.dict. destruct (DotEnv._dict self) as [d|] eqn:Hd; [|done].
  destruct (PyDict.truthy d); [|done].
  unfold ret. by eauto 10.
Qed.

(** X5. A mapping that is not empty is kept: once [dict] has returned it,
    calling [dict] again returns the same mapping and does nothing, not
    even reading the source. *)
Theorem dict_cached (self self' : DotEnv.t) (d : Env) (w w' : World)
    (Hfirst : DotEnv.dict self w = (Ok (self', d), w'))
    (Hnonempty : PyDict.truthy d = true) :
  DotEnv.dict self' w' = (Ok (self', d), w').
Proof.
  destruct (dict_total self w) as (self1 & d1 & w1 & Hrun & Hd & _).
  rewrite Hrun in Hfirst. injection Hfirst as -> -> ->.
  unfold DotEnv.dict. by rewrite Hd, Hnonempty.
Qed.

(** X6. An empty mapping is not kept: for a file whose text, as it is
    read, has no bindings, every call of [dict] opens and reads the file
    again. *)
Theorem dict_empty_read_again (self : DotEnv.t) (path text : string) (w : World)
    (Hpath : DotEnv.dotenv_path self = Some path)
    (Hne : nonempty path = true)
    (Hnew : DotEnv._dict self = None)
    (Hfile : fs w !! path = Some text)
    (Hnone : DotEnv.yielded (parse_stream (universal_newlines text)) = []) :
  exists (self1 : DotEnv.t) (w1 w2 : World),
    DotEnv.dict self w = (Ok (self1, []), w1)
    /\ DotEnv.dict self1 w1 = (Ok (self1, []), w2)
    /\ trace w2
       = trace w1 ++ EvOpen path "r"
           :: (EvLog <$> (with_warn_for_invalid_lines
                            (parse_stream (universal_newlines text))).1).
Proof.
  assert (Hempty : forall (self0 : DotEnv.t) (w0 : World),
            DotEnv.dict_or_empty self0 = [] ->
            PyDict.update (DotEnv.dict_or_empty self0) (new_definitions self0 [] w0) = []).
  { intros self0 w0 Hd. rewrite Hd. unfold new_definitions.
    by destruct (DotEnv.interpolate self0). }
  exists (DotEnv.set__dict self []). do 2 eexists. split_and!.
  - unfold DotEnv.dict. rewrite Hnew.
    erewrite bind_Ok by (by eapply parse_file).
    rewrite Hnone, update_dict_run. cbv zeta.
    rewrite Hempty by (unfold DotEnv.dict_or_empty; by rewrite Hnew). reflexivity.
  - unfold DotEnv.dict. cbn [DotEnv._dict DotEnv.set__dict PyDict.truthy].
    erewrite bind_Ok by (by eapply parse_file).
    rewrite Hnone, update_dict_run. cbv zeta.
    rewrite Hempty by done. reflexivity.
  - cbn [trace emit]. by rewrite <- app_assoc.
Qed.


(** When the loop runs to its end, a key with a value has been written if
    [override] is on or the variable was not there. *)
Lemma set_environ_loop_sets (override : bool) (items : list (string * option string))
    (w w' : World) (k v : string) :
  PyDict.wf items ->
  (k, Some v) ∈ items ->
  override = true \/ PyDict.contains (environ w) k = false ->
  DotEnv.set_environ_loop override items w = (Ok tt, w') ->
  PyDict.get (environ w') k = Some v.
Proof.
  unfold PyDict.wf, PyDict.keys.
  revert w. induction items as [|[k0 v0] items IH]; intros w Hwf Hin Hwrite.
  { by apply elem_of_nil in Hin. }
  apply NoDup_cons in Hwf as [Hk0 Hwf].
  rewrite set_environ_loop_cons.
  apply elem_of_cons in Hin as [Heq|Hin].
  - injection Heq as <- <-.
    assert (PyDict.contains (environ w) k && negb override = false) as ->.
    { destruct Hwrite as [->| ->]; [apply andb_false_r | done]. }
    destruct (putenv_error k v); [done|].
    destruct (set_environ_loop_run override items
                (with_environ (fun env => PyDict.set env k v) w))
      as (r & w2 & Hrun & _ & _ & Hframe).
    rewrite Hrun. intros [= -> ->]. rewrite Hframe.
    + cbn [environ with_environ]. apply get_set_eq.
    + intros v' Hin. apply Hk0. by apply (list_elem_of_fmap_2 fst _ (k, Some v')).
  - assert (k0 <> k) as Hne.
    { intros ->. apply Hk0. by apply (list_elem_of_fmap_2 fst _ (k, Some v)). }
    destruct (PyDict.contains (environ w) k0 && negb override); [by apply IH|].
    destruct v0 as [v0|]; [|by apply IH].
    destruct (putenv_error k0 v0); [done|].
    apply IH; [done | done |].
    destruct Hwrite as [->|Hk]; [by left | right].
    cbn [environ with_environ]. unfold PyDict.contains in *. by rewrite get_set_ne.
Qed.



(** X8. When [os.environ] takes every name and value of the mapping,
    [set_as_environment_variables] returns [True]; and whenever it returns,
    every key that the mapping binds to a string is in the ambient
    environment with that string, when [override] is on or the variable
    was not there before. *)
Theorem loaded_values_reach_environ (self : DotEnv.t) (w : World)
    (Hwf : wf_self self) :
  exists (self' : DotEnv.t) (d : Env) (w1 : World)
         (r : Result (DotEnv.t * bool)) (w' : World),
    DotEnv.dict self w = (Ok (self', d), w1)
    /\ DotEnv._dict self' = Some d
    /\ DotEnv.set_as_environment_variables self w = (r, w')
    /\ (environ_accepts d -> r = Ok (self', true))
    /\ (r = Ok (self', true) ->
        forall k v : string,
          PyDict.get d k = Some (Some v) ->
          DotEnv.override self = true \/ PyDict.contains (environ w) k = false ->
          PyDict.get (environ w') k = Some v).
Proof.
  destruct (dict_run self w Hwf) as (self' & d & w1 & Hrun & Hd & Hwfd & Hfs & Henv).
  pose proof (set_as_environment_variables_run _ _ _ _ _ Hrun) as Hcall.
  destruct (DotEnv.set_environ_loop (DotEnv.override self) d w1) as [[[]|e] w'] eqn:Hloop.
  - exists self', d, w1, (Ok (self', true)), w'.
    split_and!; [done | done | done | done |].
    intros _ k v Hk Hwrite.
    apply (set_environ_loop_sets (DotEnv.override self) d w1 w' k v);
      [done | by apply get_Some_elem | by rewrite Henv | done].
  - exists self', d, w1, (Raise e), w'.
    split_and!; [done | done | done | | done].
    intros Haccepts.
    destruct (set_environ_loop_returns (DotEnv.override self) d w1 Haccepts)
      as (w2 & Hreturns).
    rewrite Hloop in Hreturns. discriminate.
Qed.


End LoadingMore.

(** * The functions that read or load one source *)

Section LoadersMore.
Context `{BindingStream} `{AtomTokenizer} `{DotenvFinder}.

Lemma default_dotenv_path_run (dotenv_path : option string) (stream : option nat)
    (w : World) :
  exists r : Result (option string), default_dotenv_path dotenv_path stream w = (r, w).
Proof.
  unfold default_dotenv_path, bind, ret.
  destruct dotenv_path, stream; try (by eauto).
  destruct (find_dotenv w); by eauto.
Qed.

Lemma default_dotenv_path_given (path : string) (stream : option nat) (w : World) :
  default_dotenv_path (Some path) stream w = (Ok (Some path), w).
Proof. by destruct stream. Qed.

Lemma chained_loop_run (arguments : list (option Argument)) (result : option DotEnv.t)
    (verbose interpolate : bool) (encoding : option string) (base_env : BaseEnv)
    (w : World) :
  exists (result' : option DotEnv.t) (w' : World),
    chained_loop arguments result verbose interpolate encoding base_env w
    = (Ok result', w')
    /\ fs w' = fs w /\ environ w' = environ w.
Proof.
  revert result w. induction arguments as [|argument arguments IH]; intros result w.
  - exists result, w. by cbn.
  - cbn [chained_loop]. cbv zeta.
    match goal with
    | |- context [DotEnv.parse ?cur] =>
        destruct (parse_run cur w) as (raw_values & w1 & Hrun & Hfs & Henv)
    end.
    erewrite bind_Ok by done. erewrite bind_Ok by apply update_dict_run.
    cbn [fst].
    match goal with
    | |- context [chained_loop arguments ?r] =>
        destruct (IH r w1) as (result' & w' & Hloop & Hfs' & Henv')
    end.
    exists result', w'. split_and!; [done | congruence | congruence].
Qed.

(** [get], given what [dict] returns. *)
Lemma get_run (self : DotEnv.t) (k : string) (w : World)
    (self' : DotEnv.t) (d : Env) (w' : World) :
  DotEnv.dict self w = (Ok (self', d), w') ->
  DotEnv.get self k w
  = match PyDict.get d k with
    | Some v => (Ok (self', v), w')
    | None =>
        (Ok (self', None),
         if DotEnv.verbose self
         then emit [EvLog (KeyNotFound k (DotEnv.dotenv_path self))] w'
         else w')
    end.
Proof.
  intros Hrun. unfold DotEnv.get. erewrite bind_Ok by done. cbv beta iota.
  destruct (PyDict.get d k); [done|].
  by destruct (DotEnv.verbose self).
Qed.

(** X10. Reading values has no side effect on files or on the ambient
    environment: whatever [dotenv_values], [chained_dotenv_values] and
    [get_key] return or raise, every file and every variable is as before. *)
Theorem reading_changes_nothing (w : World) :
  (forall (dotenv_path : option string) (stream : option nat)
      (verbose override interpolate : bool) (encoding : option string)
      (base_env : BaseEnv),
     let w' := (dotenv_values dotenv_path stream verbose override interpolate
                  encoding base_env w).2 in
     fs w' = fs w /\ environ w' = environ w)
  /\ (forall (sources : list (option Argument)) (verbose interpolate : bool)
        (encoding : option string) (base_env : BaseEnv),
       let w' := (chained_dotenv_values sources verbose interpolate encoding
                    base_env w).2 in
       fs w' = fs w /\ environ w' = environ w)
  /\ (forall path k : string,
       let w' := (get_key path k w).2 in
       fs w' = fs w /\ environ w' = environ w).
Proof.
  split_and!.
  - intros dotenv_path stream verbose override interpolate encoding base_env. cbv zeta.
    unfold dotenv_values.
    destruct (default_dotenv_path_run dotenv_path stream w) as ([path|e] & Hpath).
    + erewrite bind_Ok by done.
      match goal with
      | |- context [DotEnv.dict ?self] =>
          destruct (dict_total self w) as (self' & d & w' & Hrun & _ & Hfs & Henv)
      end.
      erewrite bind_Ok by done. done.
    + unfold bind. rewrite Hpath. done.
  - intros sources verbose interpolate encoding base_env. cbv zeta.
    unfold chained_dotenv_values.
    destruct (negb _ || existsb _ sources); [done|].
    destruct (chained_loop_run sources None verbose interpolate encoding base_env w)
      as (result & w1 & Hloop & Hfs & Henv).
    erewrite bind_Ok by done. destruct result as [result|]; [|done].
    destruct (dict_total result w1) as (self' & d & w' & Hrun & _ & Hfs' & Henv').
    erewrite bind_Ok by done. cbn. split; congruence.
  - intros path k. cbv zeta. unfold get_key.
    match goal with
    | |- context [DotEnv.get ?self] =>
        destruct (dict_total self w) as (self' & d & w' & Hrun & _ & Hfs & Henv);
        unfold bind; rewrite (get_run self k w self' d w' Hrun)
    end.
    destruct (PyDict.get d k); done.
Qed.

(** Parsing when there is neither a file nor a stream: nothing is read. *)
Lemma parse_without_source (self : DotEnv.t) (path : string) (w : World) :
  DotEnv.dotenv_path self = Some path ->
  DotEnv.stream self = None ->
  nonempty path = false \/ fs w !! path = None ->
  parse_stream "" = [] ->
  DotEnv.parse self w
  = (Ok [],
     emit []
       (if DotEnv.verbose self
        then emit [EvLog (CouldNotFind (if nonempty path then path else ".env"))] w
        else w)).
Proof.
  intros Hpath Hstream Hmissing Hempty.
  assert (DotEnv._get_stream self w
          = (Ok "",
             if DotEnv.verbose self
             then emit [EvLog (CouldNotFind (if nonempty path then path else ".env"))] w
             else w)) as Hget.
  { unfold DotEnv._get_stream. cbv zeta. rewrite Hpath, Hstream.
    unfold default. cbn [from_option id]. unfold_io.
    destruct (nonempty path) eqn:Hne.
    - destruct Hmissing as [?|Hfile]; [done|].
      rewrite Hfile. rewrite bool_decide_false by (by intros [? ?]).
      by destruct (DotEnv.verbose self).
    - by destruct (DotEnv.verbose self). }
  unfold DotEnv.parse. erewrite bind_Ok by exact Hget. by rewrite Hempty.
Qed.

Lemma update_dict_nothing (self : DotEnv.t) (w : World) :
  DotEnv.dict_or_empty self = [] ->
  DotEnv.update_dict self [] w = (Ok (DotEnv.set__dict self [], []), w).
Proof.
  intros Hd. rewrite update_dict_run. cbv zeta. rewrite Hd. unfold new_definitions.
  by destruct (DotEnv.interpolate self).
Qed.

(** X11. [load_dotenv] on a path without a file, and without a stream,
    still returns [True]: it sets no variable, touches no file, and logs
    that it found no file only when [verbose] is on. *)
Theorem load_dotenv_without_file (path : string)
    (verbose override interpolate : bool) (encoding : option string) (w : World)
    (Hmissing : nonempty path = false \/ fs w !! path = None)
    (Hempty : parse_stream "" = []) :
  exists w' : World,
    load_dotenv (Some path) None verbose override interpolate encoding w = (Ok true, w')
    /\ environ w' = environ w /\ fs w' = fs w /\ streams w' = streams w
    /\ trace w'
       = trace w
         ++ (if verbose
             then [EvLog (CouldNotFind (if nonempty path then path else ".env"))]
             else []).
Proof.
  eexists. split.
  - unfold load_dotenv. erewrite bind_Ok by apply default_dotenv_path_given.
    cbv zeta. erewrite bind_Ok; cycle 1.
    { unfold DotEnv.set_as_environment_variables, DotEnv.dict.
      cbn [DotEnv._dict DotEnv.__init__].
      erewrite bind_Ok; cycle 1.
      { erewrite bind_Ok by (by apply (parse_without_source _ path)).
        by apply update_dict_nothing. }
      cbv beta iota. reflexivity. }
    reflexivity.
  - cbn [DotEnv.verbose DotEnv.__init__].
    destruct verbose; cbn [environ fs streams trace emit];
      rewrite ?app_nil_r, <- ?app_assoc; done.
Qed.

(** [dotenv_values] for a new object, once the path is settled: the pairs
    parsed, merged into an empty mapping. *)
Lemma dotenv_values_run (dotenv_path : option string) (stream : option nat)
    (verbose override interpolate : bool) (encoding : option string)
    (base_env : BaseEnv) (w : World) :
  default_dotenv_path dotenv_path stream w = (Ok dotenv_path, w) ->
  let self := DotEnv.__init__ dotenv_path stream verbose encoding interpolate
                override base_env in
  dotenv_values dotenv_path stream verbose override interpolate encoding base_env w
  = match DotEnv.parse self w with
    | (Ok raw_values, w') =>
        (Ok (PyDict.update PyDict.empty (new_definitions self raw_values w')), w')
    | (Raise e, w') => (Raise e, w')
    end.
Proof.
  intros Hpath. cbv zeta. unfold dotenv_values. erewrite bind_Ok by exact Hpath.
  unfold DotEnv.dict. cbn [DotEnv._dict DotEnv.__init__].
  unfold bind at 1 2.
  destruct (DotEnv.parse _ w) as [[raw_values|e] w']; [|done].
  by rewrite update_dict_run.
Qed.

(** X12. [get_key] returns what [dotenv_values] (verbose, with the other
    arguments at their defaults) binds the key to, and when the key is not
    bound, be it that the file is missing, it returns [None] and logs a
    warning. *)
Theorem get_key_reads_dotenv_values (path k : string) (w : World) :
  exists (d : Env) (w' : World),
    dotenv_values (Some path) None true true true None OsEnviron w = (Ok d, w')
    /\ get_key path k w
       = match PyDict.get d k with
         | Some v => (Ok v, w')
         | None => (Ok None, emit [EvLog (KeyNotFound k (Some path))] w')
         end.
Proof.
  destruct (dict_total
              (DotEnv.__init__ (Some path) None true None true true OsEnviron) w)
    as (self' & d & w' & Hrun & _).
  exists d, w'. split.
  - unfold dotenv_values. erewrite bind_Ok by apply default_dotenv_path_given.
    by erewrite bind_Ok by exact Hrun.
  - unfold get_key, bind. rewrite (get_run _ k w self' d w' Hrun).
    by destruct (PyDict.get d k).
Qed.

Lemma parse_get_stream (self self' : DotEnv.t) (w : World) :
  DotEnv._get_stream self w = DotEnv._get_stream self' w ->
  DotEnv.parse self w = DotEnv.parse self' w.
Proof. intros Hsame. unfold DotEnv.parse, bind. by rewrite Hsame. Qed.

(** X13. A path that names a file goes before a stream: [dotenv_values]
    with both reads the file and leaves the stream unread, as if no stream
    had been given; when the path names no file, the stream is read, as if
    no path had been given. *)
Theorem file_before_stream (path : string) (handle : nat)
    (verbose override interpolate : bool) (encoding : option string)
    (base_env : BaseEnv) (w : World) :
  (nonempty path = true -> is_Some (fs w !! path) ->
   dotenv_values (Some path) (Some handle) verbose override interpolate encoding base_env w
   = dotenv_values (Some path) None verbose override interpolate encoding base_env w
   /\ streams (dotenv_values (Some path) (Some handle) verbose override interpolate
                 encoding base_env w).2 = streams w)
  /\ (nonempty path = false \/ fs w !! path = None ->
      dotenv_values (Some path) (Some handle) verbose override interpolate encoding
        base_env w
      = dotenv_values None (Some handle) verbose override interpolate encoding
          base_env w).
Proof.
  split.
  - intros Hne [text Hfile].
    rewrite !dotenv_values_run by done. cbv zeta.
    rewrite !(parse_file _ path text) by done. done.
  - intros Hmissing.
    rewrite !dotenv_values_run by done. cbv zeta.
    rewrite (parse_get_stream _
               (DotEnv.__init__ None (Some handle) verbose encoding interpolate
                  override base_env)).
    + by destruct (DotEnv.parse _ w) as [[raw_values|e] w'].
    + unfold DotEnv._get_stream. cbv zeta.
      cbn [DotEnv.dotenv_path DotEnv.stream DotEnv.__init__].
      unfold default. cbn [from_option id nonempty]. unfold_io.
      destruct (nonempty path); [|done].
      destruct Hmissing as [?|Hfile]; [done|].
      rewrite Hfile. by rewrite bool_decide_false by (by intros [? ?]).
Qed.

End LoadersMore.

(** * More on the rewrite transaction and the key mutators *)

Section KeyMutatorsMore.
Context `{BindingStream} `{Platform} `{TempNames} `{StrMethods}.

(** What [rewrite] leaves alone, however the body ends. *)
Lemma rewrite_frame {A} (path : string) (body : string -> BodyRun A) (w : World) :
  let w' := (rewrite path body w).2 in
  (forall p : string, p <> path -> fs w' !! p = fs w !! p)
  /\ environ w' = environ w /\ streams w' = streams w.
Proof.
  cbv zeta. rewrite rewrite_run. cbv zeta.
  assert (Hstart : forall p : string, p <> path -> files_at_start path w !! p = fs w !! p).
  { intros p Hne. unfold files_at_start.
    destruct (fs w !! path); [done|]. by apply lookup_insert_ne. }
  destruct (outcome _); cbn [snd fs environ streams]; split_and!; try done.
  intros p Hne. rewrite lookup_insert_ne by done. by apply Hstart.
Qed.

(** X14. When the body of [rewrite], given the text read from the target,
    returns, the target holds exactly what the body wrote, stored with the
    line ending of the platform, and every other path is as it was before
    the call: no other file has changed, and the temporary file is not
    there. *)
Theorem rewrite_commit {A} (path : string) (body : string -> BodyRun A) (w : World)
    (a : A)
    (Hreturn : outcome (body (text_read w path)) = Ok a) :
  exists w' : World,
    rewrite path body w = (Ok a, w')
    /\ fs w' !! path = Some (newline_write (written (body (text_read w path))))
    /\ (forall p : string, p <> path -> fs w' !! p = fs w !! p)
    /\ exists before : list Event,
         trace w' = before ++ [EvMove (mkstemp (files_at_start path w)) path].
Proof.
  pose proof (rewrite_frame path body w) as Hframe. cbv zeta in Hframe.
  rewrite rewrite_run in *. cbv zeta in *. rewrite Hreturn in *.
  eexists. split; [reflexivity|]. cbn [fs trace snd] in *.
  split_and!; [apply lookup_insert_eq | apply Hframe | by eexists].
Qed.

(** X15. [set_key] for a key that the file does not have appends its line
    to the text read from the file and changes nothing of that text; a
    file that is missing is created with that line only.  The text is
    stored with the line ending of the platform; for a file without
    carriage returns, where lines end with a line feed, the file is as it
    was with the line after it. *)
Theorem set_key_appends (path k v quote_mode : string) (export : bool) (w : World)
    (Hmode : quote_mode ∈ ["always"; "auto"; "never"])
    (Hnew : Forall (fun mapping => key mapping <> Some k)
              (parse_stream (text_read w path)))
    (Htext : text_of (parse_stream (text_read w path)) = text_read w path) :
  exists w' : World,
    set_key path k v quote_mode export w = (Ok (Some true, k, v), w')
    /\ fs w' !! path
       = Some (newline_write (text_read w path +:+ set_key_line k v quote_mode export))
    /\ (has_char char_CR (default "" (fs w !! path)) = false -> os_linesep = LF ->
        fs w' !! path
        = Some (default "" (fs w !! path) +:+ set_key_line k v quote_mode export)).
Proof.
  destruct (set_key_run path k v quote_mode export w Hmode) as (w' & Hrun & Hfile).
  cbv zeta in Hfile.
  destruct (set_key_segments_no_key k (set_key_line k v quote_mode export) _ Hnew)
    as [Hsegments Hnone].
  rewrite Hsegments, Hnone, Htext in Hfile.
  exists w'. split_and!; [done | done |].
  intros Hcr Hsep. rewrite Hfile, newline_write_id by done.
  unfold text_read. by rewrite universal_newlines_id.
Qed.

(** X16. [set_key] for a key that one binding of the text read from the
    file has puts its line in the place of that binding: the text before
    and the text after are as they were read, and nothing is appended. *)
Theorem set_key_replaces_in_place (path k v quote_mode : string) (export : bool)
    (w : World) (before after : list Binding) (mapping : Binding)
    (Hmode : quote_mode ∈ ["always"; "auto"; "never"])
    (Hparsed : parse_stream (text_read w path) = before ++ mapping :: after)
    (Hkey : key mapping = Some k)
    (Hbefore : Forall (fun mapping => key mapping <> Some k) before)
    (Hafter : Forall (fun mapping => key mapping <> Some k) after) :
  exists w' : World,
    set_key path k v quote_mode export w = (Ok (Some true, k, v), w')
    /\ fs w' !! path
       = Some (newline_write
                 (text_of before +:+ set_key_line k v quote_mode export
                  +:+ text_of after)).
Proof.
  destruct (set_key_run path k v quote_mode export w Hmode) as (w' & Hrun & Hfile).
  cbv zeta in Hfile.
  exists w'. split; [done|]. rewrite Hfile, Hparsed.
  rewrite has_key_Exists
    by (apply Exists_app; right; by apply Exists_cons_hd).
  rewrite append_empty_r, join_fmap_split.
  rewrite set_key_segment_eq by done.
  destruct (set_key_segments_no_key k (set_key_line k v quote_mode export) _ Hbefore)
    as [-> _].
  destruct (set_key_segments_no_key k (set_key_line k v quote_mode export) _ Hafter)
    as [-> _].
  done.
Qed.

(** X17. [unset_key] for a key that the text read from the file has
    removes every binding with that key, keeps the text of all the others
    in their order, and reports the removal. *)
Theorem unset_key_removes (path k quote_mode source : string) (w : World)
    (Hfile : fs w !! path = Some source)
    (Hkey : Exists (fun mapping => key mapping = Some k)
              (parse_stream (universal_newlines source))) :
  exists w' : World,
    unset_key path k quote_mode w = (Ok (Some true, k), w')
    /\ fs w' !! path
       = Some (newline_write
                 (text_of (filter (fun mapping => key mapping <> Some k)
                             (parse_stream (universal_newlines source))))).
Proof.
  pose proof (unset_key_run path k quote_mode w (mk_is_Some _ _ Hfile)) as Hrun.
  cbv zeta in Hrun.
  assert (text_read w path = universal_newlines source) as Hread
    by (unfold text_read; by rewrite Hfile).
  rewrite Hread, has_key_Exists in Hrun by done.
  eexists. split; [exact Hrun|]. cbn [fs].
  rewrite lookup_insert_eq. by rewrite unset_key_segments_filter.
Qed.

(** X18. [set_key] and [unset_key] change the target and nothing else:
    every other path is as before (so no temporary file stays behind), and
    so are the ambient environment and the streams, whatever the
    arguments. *)
Theorem mutators_frame (path k : string) (w : World) :
  (forall (v quote_mode : string) (export : bool),
     let w' := (set_key path k v quote_mode export w).2 in
     (forall p : string, p <> path -> fs w' !! p = fs w !! p)
     /\ environ w' = environ w /\ streams w' = streams w)
  /\ (forall quote_mode : string,
       let w' := (unset_key path k quote_mode w).2 in
       (forall p : string, p <> path -> fs w' !! p = fs w !! p)
       /\ environ w' = environ w /\ streams w' = streams w).
Proof.
  split.
  - intros v quote_mode export. cbv zeta. unfold set_key.
    destruct (negb _); [done|].
    match goal with
    | |- context [rewrite path ?body] =>
        pose proof (rewrite_frame path body w) as Hframe; cbv zeta in Hframe;
        destruct (rewrite path body w) as [[a|e] w1] eqn:Hrun
    end.
    + erewrite bind_Ok by exact Hrun. exact Hframe.
    + erewrite bind_Raise by exact Hrun. exact Hframe.
  - intros quote_mode. cbv zeta. unfold unset_key, os_path_exists.
    erewrite bind_Ok by (unfold gets; reflexivity).
    destruct (negb _); [done|].
    match goal with
    | |- context [rewrite path ?body] =>
        pose proof (rewrite_frame path body w) as Hframe; cbv zeta in Hframe;
        destruct (rewrite path body w) as [[removed|e] w1] eqn:Hrun
    end.
    + erewrite bind_Ok by exact Hrun. destruct (negb removed); exact Hframe.
    + erewrite bind_Raise by exact Hrun. exact Hframe.
Qed.

End KeyMutatorsMore.

(** * More on the chain loader *)

Lemma update_nil_inv {V} (d : PyDict.t V) (items : list (string * V)) :
  PyDict.update d items = [] -> d = [] /\ items = [].
Proof.
  intros Hnil. assert (PyDict.keys (PyDict.update d items) = []) as Hkeys
    by (by rewrite Hnil).
  rewrite keys_update in Hkeys. apply app_eq_nil in Hkeys as [Hd Hnew].
  unfold PyDict.keys in Hd. apply fmap_nil_inv in Hd. subst d. split; [done|].
  destruct items as [|[k v] items]; [done|].
  cbn [fmap list_fmap fst first_defs] in Hnew.
  rewrite filter_cons_True in Hnew by apply not_elem_of_nil. done.
Qed.

Section ChainLoaderMore.
Context `{BindingStream} `{AtomTokenizer} `{DotenvFinder}.

(** Reading the file of an object again, when its mapping is empty. *)
Lemma dict_of_file (self : DotEnv.t) (path text : string) (w : World) :
  DotEnv.dotenv_path self = Some path ->
  nonempty path = true ->
  fs w !! path = Some text ->
  let w' := emit (EvLog <$> (with_warn_for_invalid_lines (parse_stream (universal_newlines text))).1)
              (emit [EvOpen path "r"] w) in
  let d := PyDict.update (DotEnv.dict_or_empty self)
             (new_definitions self (DotEnv.yielded (parse_stream (universal_newlines text))) w') in
  DotEnv.dict self w
  = if PyDict.truthy (DotEnv.dict_or_empty self)
    then (Ok (self, DotEnv.dict_or_empty self), w)
    else (Ok (DotEnv.set__dict self d, d), w').
Proof.
  intros Hpath Hne Hfile. cbv zeta.
  set (w' := emit (EvLog <$> (with_warn_for_invalid_lines (parse_stream (universal_newlines text))).1)
               (emit [EvOpen path "r"] w)).
  set (d := PyDict.update (DotEnv.dict_or_empty self)
              (new_definitions self (DotEnv.yielded (parse_stream (universal_newlines text))) w')).
  assert (Hread :
    (bind (DotEnv.parse self) (fun raw_values => DotEnv.update_dict self raw_values)) w
    = (Ok (DotEnv.set__dict self d, d), w')).
  { erewrite bind_Ok by (by apply (parse_file _ path text)). apply update_dict_run. }
  clearbody d w'. unfold DotEnv.dict, DotEnv.dict_or_empty in *.
  destruct (DotEnv._dict self) as [d0|]; [|exact Hread].
  destruct (PyDict.truthy d0); [done | exact Hread].
Qed.

(** X19. A chain of one file is [dotenv_values] of that file with
    [override] on: both return the same mapping. *)
Theorem chain_of_one_file (path text : string) (verbose interpolate : bool)
    (encoding : option string) (base_env : BaseEnv) (w : World)
    (Hne : nonempty path = true)
    (Hfile : fs w !! path = Some text) :
  (chained_dotenv_values [Some (ArgPath path)] verbose interpolate encoding base_env w).1
  = (dotenv_values (Some path) None verbose true interpolate encoding base_env w).1.
Proof.
  rewrite dotenv_values_run by done. cbv zeta.
  rewrite (parse_file _ path text) by done. cbn [fst].
  unfold chained_dotenv_values. cbn [negb existsb orb chained_loop].
  erewrite bind_Ok; cycle 1.
  { erewrite bind_Ok by (by apply (parse_file _ path text)).
    erewrite bind_Ok by apply update_dict_run. reflexivity. }
  cbn [fst]. unfold bind at 1.
  rewrite (dict_of_file _ path text) by done.
  cbn [DotEnv.dict_or_empty DotEnv._dict DotEnv.set__dict DotEnv.__init__].
  match goal with
  | |- context [PyDict.truthy ?x] => destruct x as [|kv rest] eqn:Hd
  end; [|done].
  cbn [PyDict.truthy PyDict.update fst snd PyDict.empty].
  unfold ret. cbn [fst snd]. f_equal. exact Hd.
Qed.

End ChainLoaderMore.

(** ** Dictionaries as mappings *)

Lemma get_notin {V} (d : PyDict.t V) (k : string) :
  k ∉ PyDict.keys d -> PyDict.get d k = None.
Proof.
  unfold PyDict.keys. induction d as [|[k0 v0] d IH]; [done|].
  intros [Hne Hnotin]%not_elem_of_cons. cbn [PyDict.get].
  rewrite decide_False by done. by apply IH.
Qed.

Lemma get_None_notin {V} (d : PyDict.t V) (k : string) :
  PyDict.get d k = None -> k ∉ PyDict.keys d.
Proof.
  unfold PyDict.keys. induction d as [|[k0 v0] d IH]; [intros _; apply not_elem_of_nil|].
  cbn [PyDict.get]. destruct (decide (k0 = k)) as [->|Hne]; [done|].
  intros Hget. apply not_elem_of_cons. split; [done | by apply IH].
Qed.

(** Looking up in an updated dictionary: the items first, then the
    dictionary. *)
Lemma get_update_overlay {V} (d items : PyDict.t V) (k : string) :
  PyDict.wf items ->
  PyDict.get (PyDict.update d items) k
  = match PyDict.get items k with
    | Some v => Some v
    | None => PyDict.get d k
    end.
Proof.
  intros Hwf. destruct (PyDict.get items k) as [v|] eqn:Hget.
  - by apply get_update_wf.
  - apply get_update_notin. by apply get_None_notin.
Qed.

(** Two dictionaries with the same keys in the same order and the same
    values are the same. *)
Lemma dict_ext {V} (d d' : PyDict.t V) :
  PyDict.wf d ->
  PyDict.keys d = PyDict.keys d' ->
  (forall k : string, PyDict.get d k = PyDict.get d' k) ->
  d = d'.
Proof.
  unfold PyDict.wf, PyDict.keys. revert d'.
  induction d as [|[k v] d IH]; intros [|[k' v'] d'] Hwf Hkeys Hget; try done.
  apply NoDup_cons in Hwf as [Hk Hwf]. injection Hkeys as <- Hkeys.
  change (d.*1 = d'.*1) in Hkeys.
  pose proof (Hget k) as Hv. cbn [PyDict.get] in Hv. rewrite !decide_True in Hv by done.
  injection Hv as <-. f_equal. apply IH; [done | done |].
  intros j. destruct (decide (k = j)) as [<-|Hne].
  - rewrite (get_notin d k) by done. rewrite (get_notin d' k); [done|].
    unfold PyDict.keys. change (k ∉ d'.*1). by rewrite <- Hkeys.
  - specialize (Hget j). cbn [PyDict.get] in Hget. by rewrite !decide_False in Hget by done.
Qed.

Lemma update_nil_wf {V} (d : PyDict.t V) :
  PyDict.wf d -> PyDict.update PyDict.empty d = d.
Proof.
  intros Hwf. apply dict_ext.
  - apply update_wf. apply NoDup_nil_2.
  - rewrite keys_update. cbn [PyDict.keys PyDict.empty fmap list_fmap app].
    rewrite filter_notin_nil. by apply first_defs_id.
  - intros k. rewrite get_update_overlay by done. by destruct (PyDict.get d k).
Qed.

Section ChainSteps.
Context `{AtomTokenizer}.

Lemma resolve_variables_from_wf (new_values : Env)
    (values : list (string * option string)) (override : bool) (base_env : Env) :
  PyDict.wf new_values ->
  PyDict.wf (resolve_variables_from new_values values override base_env).
Proof.
  revert new_values. induction values as [|[k v] values IH]; intros new_values Hwf; [done|].
  cbn [resolve_variables_from]. by apply IH, set_wf.
Qed.

Lemma chain_step_wf (interpolate : bool) (env d : Env)
    (raw_values : list (string * option string)) :
  PyDict.wf d -> PyDict.wf (chain_step interpolate env d raw_values).
Proof. intros Hwf. by apply update_wf. Qed.

(** The lookup environment with [override] on: the values resolved so far,
    then the base environment. *)
Lemma get_override_env (base_env new_values : Env) (name : string) :
  PyDict.wf base_env -> PyDict.wf new_values ->
  PyDict.get (PyDict.update (PyDict.update PyDict.empty base_env) new_values) name
  = match PyDict.get new_values name with
    | Some v => Some v
    | None => PyDict.get base_env name
    end.
Proof.
  intros Hbase Hnew. rewrite get_update_overlay by done.
  destruct (PyDict.get new_values name); [done|].
  rewrite get_update_overlay by done. by destruct (PyDict.get base_env name).
Qed.

Lemma get_merge (a b : Env) (name : string) :
  PyDict.wf b ->
  PyDict.get (PyDict.merge a b) name
  = match PyDict.get b name with
    | Some v => Some v
    | None => PyDict.get (PyDict.update PyDict.empty a) name
    end.
Proof. intros Hb. unfold PyDict.merge. by rewrite get_update_overlay. Qed.

(** Resolving the pairs of a second source against the mapping so far
    runs like going on with the pairs in the same pass. *)
Lemma resolve_second_source (env d first : Env)
    (values : list (string * option string)) (new_values so_far : Env) :
  PyDict.wf d -> PyDict.wf first -> PyDict.wf new_values -> PyDict.wf so_far ->
  (forall k : string,
     PyDict.get so_far k
     = match PyDict.get new_values k with
       | Some v => Some v
       | None => PyDict.get first k
       end) ->
  let second := resolve_variables_from new_values values true
                  (PyDict.merge env (PyDict.update d first)) in
  let whole := resolve_variables_from so_far values true (PyDict.merge env d) in
  forall k : string,
    PyDict.get whole k
    = match PyDict.get second k with
      | Some v => Some v
      | None => PyDict.get first k
      end.
Proof.
  intros Hd Hfirst. cbv zeta. revert new_values so_far.
  induction values as [|[k0 v0] values IH]; intros new_values so_far Hnew Hso Hinv; [done|].
  cbn [resolve_variables_from].
  assert (resolve_value true (PyDict.merge env d) so_far v0
          = resolve_value true (PyDict.merge env (PyDict.update d first)) new_values v0)
    as ->.
  { destruct v0 as [v0|]; [|done]. unfold resolve_value. do 2 f_equal.
    apply map_ext. intros atom. apply resolve_ext. intros name.
    rewrite !get_override_env by (done || apply merge_wf).
    rewrite Hinv. destruct (PyDict.get new_values name); [done|].
    rewrite !get_merge by (done || by apply update_wf).
    rewrite (get_update_overlay d first) by done.
    by destruct (PyDict.get first name). }
  apply IH; [by apply set_wf | by apply set_wf |].
  intros k. rewrite !get_set. destruct (decide (k0 = k)); [done | apply Hinv].
Qed.

(** Two steps of a chain are one step with the pairs of the two sources
    one after the other. *)
Lemma chain_step_app (env d : Env) (raw_values raw_values' : list (string * option string)) :
  PyDict.wf d ->
  chain_step true env (chain_step true env d raw_values) raw_values'
  = chain_step true env d (raw_values ++ raw_values').
Proof.
  intros Hd. unfold chain_step.
  set (first := resolve_variables raw_values true (PyDict.merge env d)).
  assert (PyDict.wf first) as Hfirst by apply resolve_variables_wf.
  unfold resolve_variables at 2. rewrite resolve_variables_from_app. fold first.
  set (second := resolve_variables raw_values' true
                   (PyDict.merge env (PyDict.update d first))).
  set (whole := resolve_variables_from first raw_values' true (PyDict.merge env d)).
  assert (PyDict.wf second) as Hsecond by apply resolve_variables_wf.
  assert (PyDict.wf whole) as Hwhole by (by apply resolve_variables_from_wf).
  assert (Hget : forall k : string,
            PyDict.get whole k
            = match PyDict.get second k with
              | Some v => Some v
              | None => PyDict.get first k
              end).
  { apply (resolve_second_source env d first raw_values' PyDict.empty first);
      [done | done | apply NoDup_nil_2 | done | done]. }
  apply dict_ext.
  - by apply update_wf, update_wf.
  - rewrite !keys_update.
    assert (PyDict.keys whole
            = PyDict.keys first
              ++ filter (fun k => k ∉ PyDict.keys first) (first_defs raw_values'.*1))
      as Hkw by apply keys_resolve_variables_from.
    assert (PyDict.keys second = first_defs raw_values'.*1) as Hks
      by apply keys_resolve_variables.
    unfold PyDict.keys in *.
    rewrite (first_defs_id whole.*1) by exact Hwhole.
    rewrite (first_defs_id first.*1) by exact Hfirst.
    rewrite (first_defs_id second.*1) by exact Hsecond.
    rewrite Hkw, Hks, filter_app, <- app_assoc. do 2 f_equal.
    rewrite list_filter_filter. apply list_filter_iff. intros k.
    rewrite not_elem_of_app, list_elem_of_filter. tauto.
  - intros k. rewrite !get_update_overlay by done. rewrite Hget.
    by destruct (PyDict.get second k).
Qed.

Lemma chain_steps_concat (env d : Env) (sources : list (list (string * option string))) :
  PyDict.wf d ->
  foldl (chain_step true env) d sources = chain_step true env d (List.concat sources).
Proof.
  revert d. induction sources as [|raw_values sources IH]; intros d Hd.
  - cbn. unfold chain_step. by cbn.
  - cbn [foldl List.concat]. rewrite IH by (by apply chain_step_wf).
    by apply chain_step_app.
Qed.

End ChainSteps.

Section ChainOfFiles.
Context `{BindingStream} `{AtomTokenizer}.

Lemma foldl_chain_step_nil (interpolate : bool) (env d : Env)
    (sources : list (list (string * option string))) :
  foldl (chain_step interpolate env) d sources = [] -> d = [].
Proof.
  revert d. induction sources as [|raw_values sources IH]; intros d; [done|].
  cbn [foldl]. intros Hnil%IH. unfold chain_step in Hnil.
  by apply update_nil_inv in Hnil as [? _].
Qed.

(** One call of [update_dict] in a chain is one step of the chain. *)
Lemma update_dict_chain_step (self : DotEnv.t)
    (raw_values : list (string * option string)) (w w0 : World) :
  DotEnv.override self = true ->
  environ w0 = environ w ->
  PyDict.update (DotEnv.dict_or_empty self) (new_definitions self raw_values w0)
  = chain_step (DotEnv.interpolate self) (current_base_env (DotEnv.base_env self) w)
      (DotEnv.dict_or_empty self) raw_values.
Proof.
  intros Hoverride Henv. unfold new_definitions, chain_step. rewrite Hoverride.
  assert (current_base_env (DotEnv.base_env self) w0
          = current_base_env (DotEnv.base_env self) w) as ->; [|done].
  unfold current_base_env. destruct (DotEnv.base_env self); [by rewrite Henv | done].
Qed.

Lemma chained_loop_files (paths : list string) (result : DotEnv.t)
    (verbose : bool) (encoding : option string) (w w0 : World) :
  DotEnv.override result = true ->
  fs w0 = fs w -> environ w0 = environ w ->
  Forall (fun path => nonempty path = true /\ is_Some (fs w !! path)) paths ->
  exists (result' : DotEnv.t) (w' : World),
    chained_loop ((fun path => Some (ArgPath path)) <$> paths) (Some result)
      verbose (DotEnv.interpolate result) encoding (DotEnv.base_env result) w0
    = (Ok (Some result'), w')
    /\ DotEnv.dict_or_empty result'
       = foldl (chain_step (DotEnv.interpolate result)
                  (current_base_env (DotEnv.base_env result) w))
           (DotEnv.dict_or_empty result) (file_pairs w <$> paths)
    /\ DotEnv.interpolate result' = DotEnv.interpolate result
    /\ DotEnv.override result' = true
    /\ DotEnv.base_env result' = DotEnv.base_env result
    /\ DotEnv.dotenv_path result' = DotEnv.dotenv_path result
    /\ fs w' = fs w /\ environ w' = environ w.
Proof.
  intros Hoverride Hfs Henv Hpaths. revert result w0 Hoverride Hfs Henv.
  induction Hpaths as [|path paths [Hne [text Hfile]] _ IH];
    intros result w0 Hoverride Hfs Henv.
  - exists result, w0. by cbn.
  - cbn [fmap list_fmap chained_loop]. cbv zeta.
    erewrite bind_Ok by (apply (parse_file _ path text); [done | done | congruence]).
    erewrite bind_Ok by apply update_dict_run. cbn [fst].
    rewrite (update_dict_chain_step result _ w) by done.
    match goal with
    | |- context [chained_loop _ (Some ?r) _ _ _ _ ?w1] =>
        destruct (IH r w1)
          as (result' & w' & Hloop & Hd & Hi & Ho & Hb & Hp & Hfs' & Henv');
        [done | by cbn | by cbn | ]
    end.
    exists result', w'. split; [exact Hloop|].
    split_and!; [| done | done | done | by rewrite Hp | done | done].
    rewrite Hd. cbn [foldl DotEnv.dict_or_empty DotEnv._dict DotEnv.set__dict
                     DotEnv.interpolate DotEnv.base_env].
    unfold file_pairs at 2, text_read. by rewrite Hfile.
Qed.

(** A chain of files, whole: the steps of the chain from the empty
    mapping. *)
Lemma chained_files_run (path : string) (paths : list string)
    (verbose interpolate : bool) (encoding : option string) (base_env : BaseEnv)
    (w : World) :
  Forall (fun path => nonempty path = true /\ is_Some (fs w !! path)) (path :: paths) ->
  (chained_dotenv_values ((fun path => Some (ArgPath path)) <$> (path :: paths))
     verbose interpolate encoding base_env w).1
  = Ok (foldl (chain_step interpolate (current_base_env base_env w)) []
          (file_pairs w <$> (path :: paths))).
Proof.
  intros [[Hne [text Hfile]] Hrest]%Forall_cons.
  unfold chained_dotenv_values.
  assert (negb (match (fun path => Some (ArgPath path)) <$> path :: paths with
                | [] => false | _ :: _ => true end)
          || existsb (fun arg => match arg with None => true | Some _ => false end)
               ((fun path => Some (ArgPath path)) <$> path :: paths) = false) as ->.
  { cbn [fmap list_fmap negb orb existsb]. clear. induction paths; [done|]. by cbn. }
  cbn [fmap list_fmap chained_loop]. cbv zeta.
  set (cur := DotEnv.__init__ (Some path) None verbose encoding interpolate true base_env).
  set (w1 := emit (EvLog <$> (with_warn_for_invalid_lines (parse_stream (universal_newlines text))).1)
               (emit [EvOpen path "r"] w)).
  destruct (chained_loop_files paths
              (DotEnv.set__dict cur
                 (chain_step interpolate (current_base_env base_env w) []
                    (DotEnv.yielded (parse_stream (universal_newlines text)))))
              verbose encoding w w1)
    as (result' & w' & Hloop & Hd & Hi & Ho & Hb & Hp & Hfs' & Henv'); [done..|].
  cbn [DotEnv.dict_or_empty DotEnv._dict DotEnv.set__dict DotEnv.__init__
       DotEnv.dotenv_path DotEnv.interpolate DotEnv.base_env cur] in Hloop, Hd, Hi, Hb, Hp.
  assert (file_pairs w path = DotEnv.yielded (parse_stream (universal_newlines text))) as Hpairs
    by (unfold file_pairs, text_read; by rewrite Hfile).
  rewrite <- Hpairs in Hd.
  erewrite bind_Ok; cycle 1.
  { erewrite bind_Ok by (by apply (parse_file _ path text)).
    erewrite bind_Ok by apply update_dict_run. cbn [fst]. fold w1.
    rewrite (update_dict_chain_step cur _ w) by done.
    exact Hloop. }
  cbn [foldl]. rewrite <- Hd. unfold bind.
  rewrite (dict_of_file _ path text) by (done || congruence).
  destruct (PyDict.truthy (DotEnv.dict_or_empty result')) eqn:Htruthy; [done|].
  cbn [fst snd]. unfold ret. cbn [fst]. f_equal.
  assert (DotEnv.dict_or_empty result' = []) as Hnil
    by (by destruct (DotEnv.dict_or_empty result')).
  rewrite (update_dict_chain_step result' _ w) by (done || (cbn; congruence)).
  rewrite Hnil, Hi, Hb. rewrite Hnil in Hd. symmetry in Hd.
  apply foldl_chain_step_nil in Hd. by rewrite <- Hpairs.
Qed.

(** X20. Without interpolation, a chain of files is the dictionary update
    of their pairs from left to right; so a key that the last file defines
    has the value that the last file gives it. *)
Theorem chain_without_interpolation (front : list string) (last_path : string)
    (verbose : bool) (encoding : option string) (base_env : BaseEnv) (w : World)
    (Hfiles : Forall (fun path => nonempty path = true /\ is_Some (fs w !! path))
                (front ++ [last_path])) :
  exists d : Env,
    (chained_dotenv_values ((fun path => Some (ArgPath path)) <$> (front ++ [last_path]))
       verbose false encoding base_env w).1 = Ok d
    /\ d = foldl PyDict.update [] (file_pairs w <$> (front ++ [last_path]))
    /\ forall k : string,
         k ∈ (file_pairs w last_path).*1 ->
         PyDict.get d k = PyDict.get (PyDict.update PyDict.empty (file_pairs w last_path)) k.
Proof.
  eexists. split_and!; [| reflexivity |].
  - destruct (front ++ [last_path]) as [|path paths] eqn:Hpaths; [by destruct front|].
    by rewrite chained_files_run.
  - intros k Hk. rewrite fmap_app, foldl_app. cbn [fmap list_fmap foldl].
    by apply get_update_in.
Qed.

(** X21. With interpolation, a chain of files resolves like one file with
    the pairs of all of them, each file after the one before, in one pass
    with [override] on. *)
Theorem chain_is_one_pass (path : string) (paths : list string)
    (verbose : bool) (encoding : option string) (base_env : BaseEnv) (w : World)
    (Hfiles : Forall (fun path => nonempty path = true /\ is_Some (fs w !! path))
                (path :: paths)) :
  (chained_dotenv_values ((fun path => Some (ArgPath path)) <$> (path :: paths))
     verbose true encoding base_env w).1
  = Ok (resolve_variables (List.concat (file_pairs w <$> (path :: paths))) true
          (PyDict.merge (current_base_env base_env w) [])).
Proof.
  rewrite chained_files_run by done. f_equal.
  rewrite chain_steps_concat by apply NoDup_nil_2.
  unfold chain_step. apply update_nil_wf, resolve_variables_wf.
Qed.

End ChainOfFiles.

(** * The further statements on the sample inputs *)

Lemma resolve_variables_single_pass_witness :
  PyDict.get
    (resolve_variables ([("A", Some "1")] ++ [("B", Some "${A}")]) true []) "A"
  = PyDict.get (resolve_variables [("A", Some "1")] true []) "A".
Proof. apply (@resolve_variables_single_pass posix_tokenizer). decide_it. Defined.

Lemma override_irrelevant_when_disjoint_witness :
  resolve_variables [("A", Some "1"); ("B", Some "${A}")] true [("HOME", Some "/root")]
  = resolve_variables [("A", Some "1"); ("B", Some "${A}")] false [("HOME", Some "/root")].
Proof.
  apply (@override_irrelevant_when_disjoint posix_tokenizer).
  intros k Hk Hin. apply list_elem_of_singleton in Hin. subst k.
  revert Hk. decide_it.
Defined.

Lemma resolve_variables_reference_free_witness :
  resolve_variables [("A", Some "1"); ("B", None)] false [("A", Some "9")]
  = PyDict.update PyDict.empty [("A", Some "1"); ("B", None)].
Proof.
  apply (@resolve_variables_reference_free posix_tokenizer).
  intros k value Hin.
  apply elem_of_cons in Hin as [Heq|Hin].
  - injection Heq as -> ->. exists ["1"]. split; reflexivity.
  - apply elem_of_cons in Hin as [Heq|Hin]; [discriminate|].
    by apply elem_of_nil in Hin.
Defined.

Lemma dict_cached_witness :
  exists (self' : DotEnv.t) (d : Env) (w' : World),
    DotEnv.dict (DotEnv.__init__ (Some "a.env") None false None true true (Mapping []))
      sample_world
    = (Ok (self', d), w')
    /\ DotEnv.dict self' w' = (Ok (self', d), w').
Proof.
  eassert (Hrun : DotEnv.dict
                    (DotEnv.__init__ (Some "a.env") None false None true true (Mapping []))
                    sample_world = (Ok (_, _), _)) by (vm_compute; reflexivity).
  do 3 eexists. split; [exact Hrun|].
  apply (@dict_cached line_binding_stream posix_tokenizer _ _ _ _ _ Hrun). reflexivity.
Defined.

Lemma dict_empty_read_again_witness :
  exists (self1 : DotEnv.t) (w1 w2 : World),
    DotEnv.dict (DotEnv.__init__ (Some "empty.env") None false None true true OsEnviron)
      comment_only_world
    = (Ok (self1, []), w1)
    /\ DotEnv.dict self1 w1 = (Ok (self1, []), w2)
    /\ trace w2
       = trace w1 ++ EvOpen "empty.env" "r"
           :: (EvLog <$> (with_warn_for_invalid_lines
                            (parse_stream
                               (universal_newlines (lines ["# nothing here"])))).1).
Proof.
  apply (@dict_empty_read_again line_binding_stream posix_tokenizer);
    vm_compute; reflexivity.
Defined.


Lemma loaded_values_reach_environ_witness :
  exists (self' : DotEnv.t) (d : Env) (w' : World),
    DotEnv.set_as_environment_variables
      (DotEnv.__init__ (Some "b.env") None false None true true OsEnviron) sample_world
    = (Ok (self', true), w')
    /\ DotEnv._dict self' = Some d
    /\ PyDict.get d "A" = Some (Some "2")
    /\ PyDict.get (environ w') "A" = Some "2".
Proof.
  destruct (@loaded_values_reach_environ line_binding_stream posix_tokenizer
              (DotEnv.__init__ (Some "b.env") None false None true true OsEnviron)
              sample_world I)
    as (self' & d & w1 & r & w' & Hdict & Hd & Hrun & Hreturns & Hset).
  vm_compute in Hdict. injection Hdict as <- <- <-.
  assert (Haccepts : environ_accepts [("A", Some "2"); ("B", Some "2")])
    by (by apply environ_accepts_checked).
  specialize (Hreturns Haccepts).
  do 2 eexists. exists w'. split_and!.
  - rewrite Hrun. f_equal. exact Hreturns.
  - reflexivity.
  - reflexivity.
  - apply (Hset Hreturns); [reflexivity | by left].
Defined.


Lemma load_dotenv_without_file_witness :
  exists w' : World,
    load_dotenv (Some "missing.env") None true false true (Some "utf-8") sample_world
    = (Ok true, w')
    /\ environ w' = environ sample_world /\ fs w' = fs sample_world
    /\ streams w' = streams sample_world
    /\ trace w' = trace sample_world ++ [EvLog (CouldNotFind "missing.env")].
Proof.
  apply (@load_dotenv_without_file line_binding_stream posix_tokenizer finds_nothing
           "missing.env" true false true (Some "utf-8") sample_world);
    [right; reflexivity | reflexivity].
Defined.

Lemma file_before_stream_witness :
  dotenv_values (Some "a.env") (Some 0) false true true None OsEnviron sample_world
  = dotenv_values (Some "a.env") None false true true None OsEnviron sample_world
  /\ dotenv_values (Some "missing.env") (Some 0) false true true None OsEnviron sample_world
     = dotenv_values None (Some 0) false true true None OsEnviron sample_world.
Proof.
  destruct (@file_before_stream line_binding_stream posix_tokenizer finds_nothing
              "a.env" 0 false true true None OsEnviron sample_world) as [Hfile _].
  destruct (@file_before_stream line_binding_stream posix_tokenizer finds_nothing
              "missing.env" 0 false true true None OsEnviron sample_world) as [_ Hstream].
  split.
  - apply Hfile; [reflexivity | decide_it].
  - apply Hstream. right. reflexivity.
Defined.

Lemma rewrite_commit_witness :
  exists w' : World,
    rewrite ".env" copying_body sample_world = (Ok (String.length sample_env), w')
    /\ fs w' !! ".env" = Some sample_env
    /\ fs w' !! "a.env" = fs sample_world !! "a.env".
Proof.
  destruct (@rewrite_commit posix fresh_temp_names nat ".env" copying_body sample_world
              (String.length sample_env) eq_refl)
    as (w' & Hrun & Hfile & Hframe & _).
  exists w'. split_and!; [exact Hrun | exact Hfile | apply Hframe; discriminate].
Defined.

Lemma set_key_appends_witness :
  exists w' : World,
    set_key ".env" "D" "x y" "auto" true sample_world = (Ok (Some true, "D", "x y"), w')
    /\ fs w' !! ".env" = Some (sample_env +:+ lines ["export D='x y'"]).
Proof.
  destruct (@set_key_appends line_binding_stream posix fresh_temp_names ascii_str
              ".env" "D" "x y" "auto" true sample_world)
    as (w' & Hrun & _ & Hfile).
  - right. left.
  - decide_it.
  - vm_compute. reflexivity.
  - exists w'. split; [exact Hrun|]. rewrite Hfile by reflexivity.
    vm_compute. reflexivity.
Defined.

Lemma set_key_replaces_in_place_witness :
  exists w' : World,
    set_key "b.env" "A" "3" "never" false sample_world = (Ok (Some true, "A", "3"), w')
    /\ fs w' !! "b.env" = Some (lines ["A=3"; "B=${A}"]).
Proof.
  destruct (@set_key_replaces_in_place line_binding_stream posix fresh_temp_names
              ascii_str "b.env" "A" "3" "never" false sample_world []
              (drop 1 (parse_stream (lines ["A=2"; "B=${A}"])))
              (mkBinding (Some "A") (Some "2") (Original.mk (lines ["A=2"]) 1) false))
    as (w' & Hrun & Hfile).
  - right. right. left.
  - vm_compute. reflexivity.
  - reflexivity.
  - apply Forall_nil_2.
  - decide_it.
  - exists w'. split; [exact Hrun|]. rewrite Hfile. vm_compute. reflexivity.
Defined.

Lemma unset_key_removes_witness :
  exists w' : World,
    unset_key "b.env" "A" "always" sample_world = (Ok (Some true, "A"), w')
    /\ fs w' !! "b.env" = Some (lines ["B=${A}"]).
Proof.
  destruct (@unset_key_removes line_binding_stream posix fresh_temp_names
              "b.env" "A" "always" (lines ["A=2"; "B=${A}"]) sample_world)
    as (w' & Hrun & Hfile).
  - reflexivity.
  - decide_it.
  - exists w'. split; [exact Hrun|]. rewrite Hfile. vm_compute. reflexivity.
Defined.

Lemma mutators_frame_witness :
  fs (set_key ".env" "A" "1" "always" false sample_world).2 !! "a.env"
  = fs sample_world !! "a.env"
  /\ fs (unset_key ".env" "A" "always" sample_world).2 !! "a.env"
     = fs sample_world !! "a.env".
Proof.
  destruct (@mutators_frame line_binding_stream posix fresh_temp_names ascii_str
              ".env" "A" sample_world)
    as [Hset Hunset].
  split.
  - apply (Hset "1" "always" false). discriminate.
  - apply (Hunset "always"). discriminate.
Defined.

Lemma chain_of_one_file_witness :
  (chained_dotenv_values [Some (ArgPath "b.env")] false true None OsEnviron sample_world).1
  = (dotenv_values (Some "b.env") None false true true None OsEnviron sample_world).1.
Proof.
  apply (@chain_of_one_file line_binding_stream posix_tokenizer finds_nothing
           "b.env" (lines ["A=2"; "B=${A}"])); reflexivity.
Defined.

Lemma chain_without_interpolation_witness :
  exists d : Env,
    (chained_dotenv_values
       ((fun path => Some (ArgPath path)) <$> (["a.env"] ++ ["b.env"]))
       false false None OsEnviron sample_world).1 = Ok d
    /\ PyDict.get d "A" = Some (Some "2").
Proof.
  destruct (@chain_without_interpolation line_binding_stream posix_tokenizer
              ["a.env"] "b.env" false None OsEnviron sample_world)
    as (d & Hrun & _ & Hlast).
  - decide_it.
  - exists d. split; [exact Hrun|]. rewrite Hlast; [reflexivity | decide_it].
Defined.

Lemma chain_is_one_pass_witness :
  (chained_dotenv_values
     ((fun path => Some (ArgPath path)) <$> ["a.env"; "c.env"])
     false true None OsEnviron sample_world).1
  = Ok (resolve_variables
          (List.concat (file_pairs sample_world <$> ["a.env"; "c.env"])) true
          (PyDict.merge (current_base_env OsEnviron sample_world) [])).
Proof.
  apply (@chain_is_one_pass line_binding_stream posix_tokenizer). decide_it.
Defined.
